(** * nvidia-gpu-exporter: scrape orchestration and GPU process correlation

    A shallow embedding of [internal/collector] (the scrape orchestrator
    [NvidiaGPUCollector], the stateful [gpuProcessCollector] and
    [hostNameOrDefault]) together with the properties of its specification.

    Conventions of the embedding:
    - Go [float64] is Rocq's primitive binary64 float ([PrimFloat.float]);
      Go's [<=], [<], [-], [/], [*] on [float64] are [PrimFloat.leb], [ltb],
      [sub], [div], [mul] (IEEE 754, round to nearest even);
    - Go [uint] is [N], Go [int], [int32], [int64] are [Z];
    - a Go [string] is a sequence of bytes: [String.string];
    - [map[uint]cpuSample] is a [gmap N cpuSample];
    - the driver (NVML, DCGM), the host OS (gopsutil, [os], [runtime], [time])
      are external: one scrape cycle reads their answers from a [World];
    - a method with a pointer receiver takes the receiver's state and returns
      the new one; metrics sent on the channel are returned as a list, in the
      order they are sent;
    - calls to the logger and the deferred releases of driver handles
      ([nvml.Shutdown], the DCGM cleanup, [dcgm.DestroyGroup]) change neither
      the collector's state nor the metrics, and are left out. *)

From Stdlib Require Import ZArith Lia Floats Bool List Permutation.
From Stdlib Require Import DecimalString.
From stdpp Require Import gmap strings list sorting.

Set Warnings "-clear-no-such-hyp".

Local Open Scope Z_scope.

Abbreviation float64 := PrimFloat.float.

(** ** Go values *)

(** A Go call returning [(T, error)] whose value is only used when the error
    is nil. *)
Inductive result (E A : Type) : Type :=
  | Ok (a : A)
  | Err (e : E).
Arguments Ok {E A} a.
Arguments Err {E A} e.

(** [err != nil]. *)
Definition is_Some_b {A : Type} (err : option A) : bool :=
  match err with Some _ => true | None => false end.

(** Go's two-value map index [v, ok := m[k]]: the zero value when absent. *)
Definition map_index {V : Type} (zero : V) (m : gmap N V) (k : N) : V * bool :=
  match m !! k with
  | Some v => (v, true)
  | None => (zero, false)
  end.

(** [float64(n)] for a Go integer [n] with [|n| < 2^63]. *)
Definition float64_of_int (n : Z) : float64 :=
  if n <? 0 then PrimFloat.opp (PrimFloat.of_uint63 (Uint63.of_Z (- n)))
  else PrimFloat.of_uint63 (Uint63.of_Z n).

(** [int32(pid)] for a [uint]: truncation to 32 bits, two's complement. *)
Definition int32_of_uint (n : N) : Z :=
  let m := Z.of_N n mod 2 ^ 32 in
  if m <? 2 ^ 31 then m else m - 2 ^ 32.

(** [strconv.FormatUint(n, 10)] and [strconv.FormatInt(n, 10)]. *)
Definition FormatUint (n : N) : string := NilZero.string_of_uint (N.to_uint n).

Definition FormatInt (n : Z) : string :=
  if n <? 0 then ("-" +:+ FormatUint (Z.to_N (- n)))%string else FormatUint (Z.to_N n).

(** ** Strings as bytes, and their runes (package [unicode/utf8]) *)

Definition bytes_of_string (s : string) : list N :=
  map Ascii.N_of_ascii (String.list_ascii_of_string s).

Definition string_of_bytes (bs : list N) : string :=
  String.string_of_list_ascii (map Ascii.ascii_of_N bs).

(** [len(s)]: the number of bytes. *)
Definition len (s : string) : nat := String.length s.

Definition RuneError : N := 65533.

Definition in_range (b lo hi : N) : bool := ((lo <=? b) && (b <=? hi))%N.

(** A continuation byte, [0x80..0xBF]. *)
Definition is_cont (b : N) : bool := in_range b 128 191.

(** What the first byte of an encoding announces: a one-byte rune (ASCII, or
    [RuneError] for a byte that starts no encoding), or a sequence of [size]
    bytes whose second byte lies in [lo..hi]. *)
Inductive first_byte : Type :=
  | single (r : N)
  | lead (size : nat) (lo hi : N).

Definition first (p0 : N) : first_byte :=
  if (p0 <? 128)%N then single p0
  else if (p0 <? 194)%N then single RuneError
  else if (p0 <? 224)%N then lead 2 128 191
  else if (p0 =? 224)%N then lead 3 160 191
  else if (p0 <? 237)%N then lead 3 128 191
  else if (p0 =? 237)%N then lead 3 128 159
  else if (p0 <? 240)%N then lead 3 128 191
  else if (p0 =? 240)%N then lead 4 144 191
  else if (p0 <? 244)%N then lead 4 128 191
  else if (p0 =? 244)%N then lead 4 128 143
  else single RuneError.

Definition rune2 (p0 b1 : N) : N := (N.land p0 31 * 64 + N.land b1 63)%N.
Definition rune3 (p0 b1 b2 : N) : N :=
  (N.land p0 15 * 4096 + N.land b1 63 * 64 + N.land b2 63)%N.
Definition rune4 (p0 b1 b2 b3 : N) : N :=
  (N.land p0 7 * 262144 + N.land b1 63 * 4096 + N.land b2 63 * 64 + N.land b3 63)%N.

(** [utf8.DecodeRune(p)]: the first rune of [p] and its width in bytes. A
    byte that starts no valid encoding is [RuneError] of width 1. *)
Definition DecodeRune (p : list N) : N * nat :=
  match p with
  | [] => (RuneError, 0%nat)
  | p0 :: t0 =>
    match first p0 with
    | single r => (r, 1%nat)
    | lead size lo hi =>
      match t0 with
      | b1 :: t1 =>
        if negb (in_range b1 lo hi) then (RuneError, 1%nat)
        else if (size <=? 2)%nat then (rune2 p0 b1, 2%nat)
        else
          match t1 with
          | b2 :: t2 =>
            if negb (is_cont b2) then (RuneError, 1%nat)
            else if (size <=? 3)%nat then (rune3 p0 b1 b2, 3%nat)
            else
              match t2 with
              | b3 :: _ =>
                if negb (is_cont b3) then (RuneError, 1%nat)
                else (rune4 p0 b1 b2 b3, 4%nat)
              | [] => (RuneError, 1%nat)
              end
          | [] => (RuneError, 1%nat)
          end
      | [] => (RuneError, 1%nat)
      end
    end
  end.

(** The runes of a byte string, each with the bytes it was decoded from, as a
    [range] over the string reads them: [skip] counts the bytes that still
    belong to the rune decoded last. *)
Fixpoint decode_from (skip : nat) (p : list N) : list (N * list N) :=
  match p with
  | [] => []
  | _ :: rest =>
    match skip with
    | S skip => decode_from skip rest
    | O =>
      let '(r, size) := DecodeRune p in
      (r, firstn size p) :: decode_from (size - 1) rest
    end
  end.

Definition decode (p : list N) : list (N * list N) := decode_from 0 p.

(** [[]rune(s)]. *)
Definition runes (s : string) : list N := map fst (decode (bytes_of_string s)).

(** [utf8.EncodeRune]: surrogates and values above [U+10FFFF] are written as
    [RuneError]. *)
Definition EncodeRune (r : N) : list N :=
  if (r <? 128)%N then [r]
  else if (r <? 2048)%N then [192 + r / 64; 128 + r mod 64]%N
  else if ((1114111 <? r) || ((55296 <=? r) && (r <=? 57343)))%N then [239; 191; 189]%N
  else if (r <? 65536)%N then [224 + r / 4096; 128 + (r / 64) mod 64; 128 + r mod 64]%N
  else [240 + r / 262144; 128 + (r / 4096) mod 64; 128 + (r / 64) mod 64; 128 + r mod 64]%N.

(** [string(rs)] for a slice of runes. *)
Definition string_of_runes (rs : list N) : string :=
  string_of_bytes (concat (map EncodeRune rs)).

(** [s[:n]]: the first [n] bytes (the callers guard [n <= len(s)]). *)
Definition byte_prefix (n : nat) (s : string) : string :=
  string_of_bytes (firstn n (bytes_of_string s)).

(** [unicode.IsSpace]. *)
Definition IsSpace (r : N) : bool :=
  (in_range r 9 13 || (r =? 32) || (r =? 133) || (r =? 160) || (r =? 5760)
   || in_range r 8192 8202 || (r =? 8232) || (r =? 8233) || (r =? 8239)
   || (r =? 8287) || (r =? 12288))%N.

Fixpoint drop_space (cs : list (N * list N)) : list (N * list N) :=
  match cs with
  | c :: cs' => if IsSpace (fst c) then drop_space cs' else cs
  | [] => []
  end.

(** [strings.TrimSpace]: leading and trailing white space removed. *)
Definition TrimSpace (s : string) : string :=
  let cs := drop_space (decode (bytes_of_string s)) in
  let cs := rev (drop_space (rev cs)) in
  string_of_bytes (concat (map snd cs)).

(** [strings.Join(elems, sep)]. *)
Definition Join (elems : list string) (sep : string) : string :=
  String.concat sep elems.

Definition is_empty (s : string) : bool :=
  match s with EmptyString => true | _ => false end.

(** [strings.Repeat(s, count)]. *)
Definition Repeat (s : string) (count : nat) : string :=
  String.concat "" (repeat s count).

(** ** Errors *)

(** [nvml.Return]: the codes the collector tells apart, and the others. *)
Inductive nvmlReturn : Type :=
  | SUCCESS
  | ERROR_UNINITIALIZED
  | ERROR_NOT_SUPPORTED
  | ERROR_NO_PERMISSION
  | ERROR_NOT_FOUND
  | ERROR_DRIVER_NOT_LOADED
  | ERROR_LIBRARY_NOT_FOUND
  | ERROR_UNKNOWN
  | ERROR_other (code : Z).

(** The error values of the package. [fmt.Errorf] with [%w] wraps an error,
    which [errors.Is] later finds; without [%w] it only formats a message. *)
Inductive error : Type :=
  | ErrNoData                               (* errors.New("collector returned no data") *)
  | errGPUProcessInfoUnavailable            (* errors.New("gpu process list unavailable") *)
  | errorNew (msg : string)                 (* errors.New(msg), fmt.Errorf(msg) *)
  | wrapf (op : string) (inner : error)     (* fmt.Errorf(op + ": %w", inner) *)
  | nvmlUnavailablef (op : string) (ret : nvmlReturn)
      (* fmt.Errorf("%s: %w (%s)", op, errGPUProcessInfoUnavailable, nvml.ErrorString(ret)) *)
  | nvmlErrorf (op : string) (ret : nvmlReturn)
      (* fmt.Errorf("%s: %s", op, nvml.ErrorString(ret)) *)
  | nvmlIndexedErrorf (op : string) (index : Z) (ret : nvmlReturn)
      (* fmt.Errorf("nvml ... (index=%d): %s", i, nvml.ErrorString(ret)) *)
  | dcgmError (code : Z)                    (* *dcgm.Error *)
  | hostError (msg : string).               (* an error of gopsutil or of package os *)

(** [err == target] for the two sentinels of the package. *)
Definition same_sentinel (err target : error) : bool :=
  match err, target with
  | ErrNoData, ErrNoData => true
  | errGPUProcessInfoUnavailable, errGPUProcessInfoUnavailable => true
  | _, _ => false
  end.

(** [errors.Is(err, target)]: [err] or an error it wraps is [target]. *)
Fixpoint errors_Is (err target : error) : bool :=
  same_sentinel err target ||
  match err with
  | wrapf _ inner => errors_Is inner target
  | nvmlUnavailablef _ _ => same_sentinel errGPUProcessInfoUnavailable target
  | _ => false
  end.

Definition IsNoDataError (err : error) : bool := same_sentinel err ErrNoData.

(** ** Metrics *)

Inductive Desc : Type :=
  | scrapeDurationDesc          (* gpu_scrape_controller_duration_seconds *)
  | scrapeSuccessDesc           (* gpu_scrape_controller_success *)
  | processGPUMem               (* gpu_process_gpu_memory *)
  | processCPU                  (* gpu_process_cpu *)
  | processMem                  (* gpu_process_memory *)
  | collectorDesc (fqName : string).   (* a descriptor of another collector *)

(** [prometheus.MustNewConstMetric(desc, prometheus.GaugeValue, value, labels...)]. *)
Record Metric : Type := gauge {
  metric_desc : Desc;
  metric_value : float64;
  metric_labels : list string
}.

Definition Desc_eqb (a b : Desc) : bool :=
  match a, b with
  | scrapeDurationDesc, scrapeDurationDesc => true
  | scrapeSuccessDesc, scrapeSuccessDesc => true
  | processGPUMem, processGPUMem => true
  | processCPU, processCPU => true
  | processMem, processMem => true
  | collectorDesc x, collectorDesc y => String.eqb x y
  | _, _ => false
  end.

(** ** The world of one scrape cycle *)

(** [nvml.ProcessInfo]. *)
Record nvmlProcessInfo : Type := {
  Pid : N;                     (* uint32 *)
  UsedGpuMemory : N            (* uint64 *)
}.

(** What NVML answers for the device at one index. *)
Record nvmlDevice : Type := {
  handleRet : nvmlReturn;                                 (* DeviceGetHandleByIndex(i) *)
  computeRunningProcesses : list nvmlProcessInfo * nvmlReturn;
  graphicsRunningProcesses : list nvmlProcessInfo * nvmlReturn
}.

(** [dcgm.ProcessInfo], the fields the collector reads. *)
Record dcgmProcessInfo : Type := {
  info_GPU : N;
  info_PID : N;
  info_Name : string;
  info_GlobalUsed : Z          (* Memory.GlobalUsed, int64 *)
}.

(** [cpu.TimesStat] (also what [process.Times] returns). *)
Record TimesStat : Type := {
  User : float64; System : float64; Nice : float64; Irq : float64;
  Softirq : float64; Steal : float64; Idle : float64; Iowait : float64;
  Guest : float64; GuestNice : float64
}.

(** What gopsutil answers for one process. [Cmdline] returns its string
    together with the error, and the caller reads the string in both cases. *)
Record hostProcess : Type := {
  proc_Name : result error string;
  proc_Uids : result error (list N);
  proc_Cmdline : string * option error;
  proc_CmdlineSlice : result error (list string);
  proc_MemoryPercent : result error float64;     (* a float32, widened *)
  proc_Times : result error TimesStat
}.

Record World : Type := {
  (* package os *)
  os_Hostname : result error string;
  env_NODE_NAME : string;                 (* os.Getenv("NODE_NAME"), empty when unset *)
  (* package runtime, package time *)
  NumCPU : Z;
  elapsed_seconds : string -> float64;    (* time.Since(begin).Seconds() in execute, by collector *)
  (* NVML *)
  nvml_Init : nvmlReturn;
  nvml_DeviceGetCount : nvmlReturn;
  nvml_devices : list nvmlDevice;         (* the devices at index 0 .. count-1 *)
  (* DCGM *)
  dcgm_Init : option error;
  dcgm_WatchPidFields : option error;
  dcgm_GetProcessInfo : N -> result error (list dcgmProcessInfo);
  dcgm_IsInt64Blank : Z -> bool;          (* the library's test for its blank value *)
  (* gopsutil *)
  cpu_Times : result error (list TimesStat);       (* cpu.Times(false) *)
  process_NewProcess : Z -> result error hostProcess
}.

(** ** Host identifier (metrics.go) *)

Definition hostNameOrDefault (w : World) : string :=
  match os_Hostname w with
  | Err _ => "unknown"
  | Ok hostname =>
    let nodeName := env_NODE_NAME w in
    if negb (is_empty nodeName) then nodeName else hostname
  end.

(** ** The process collector *)

Definition unknownProcessLabel : string := "unknown".
Definition maxCommandLabelLength : nat := 200.

Record processMetadata : Type := {
  name : string;
  uid : string;
  command : string
}.

Record cpuSample : Type := { cpuSeconds : float64 }.

Record systemCPUSample : Type := {
  totalSeconds : float64;
  initialized : bool
}.

(** The mutable fields of [gpuProcessCollector]; its three descriptors are
    the constants [processGPUMem], [processCPU] and [processMem]. *)
Record gpuProcessCollector : Type := {
  cpuSamples : gmap N cpuSample;
  systemSample : systemCPUSample
}.

(** [NewGPUProcessCollector]: an empty map and the zero system sample. *)
Definition NewGPUProcessCollector : gpuProcessCollector :=
  {| cpuSamples := ∅;
     systemSample := {| totalSeconds := 0; initialized := false |} |}.

Definition wrapNVMLAvailabilityError (op : string) (ret : nvmlReturn) : error :=
  match ret with
  | ERROR_UNINITIALIZED | ERROR_LIBRARY_NOT_FOUND | ERROR_DRIVER_NOT_LOADED
  | ERROR_NOT_SUPPORTED | ERROR_NO_PERMISSION | ERROR_UNKNOWN =>
    nvmlUnavailablef op ret
  | _ => nvmlErrorf op ret
  end.

(** [addNVMLProcessInfo]: the pids of one context kind of one device join the
    set; not supported, no permission and not found add nothing. *)
Definition addNVMLProcessInfo (pidSet : gset N)
    (getter : list nvmlProcessInfo * nvmlReturn) (typ : string) (gpuIndex : Z)
    : result error (gset N) :=
  let '(processes, ret) := getter in
  match ret with
  | SUCCESS =>
    Ok (foldl (fun set info => if (Pid info =? 0)%N then set else {[Pid info]} ∪ set)
              pidSet processes)
  | ERROR_NOT_SUPPORTED | ERROR_NO_PERMISSION | ERROR_NOT_FOUND => Ok pidSet
  | _ => Err (nvmlIndexedErrorf ("nvml " +:+ typ +:+ " running processes") gpuIndex ret)
  end.

(** The loop of [nvmlProcessPIDs] over the device indices, from [i]. *)
Fixpoint nvmlDeviceLoop (devices : list nvmlDevice) (i : Z) (pidSet : gset N)
    : result error (gset N) :=
  match devices with
  | [] => Ok pidSet
  | device :: rest =>
    match handleRet device with
    | SUCCESS =>
      match addNVMLProcessInfo pidSet (computeRunningProcesses device) "compute" i with
      | Err err => Err err
      | Ok pidSet =>
        match addNVMLProcessInfo pidSet (graphicsRunningProcesses device) "graphics" i with
        | Err err => Err err
        | Ok pidSet => nvmlDeviceLoop rest (i + 1) pidSet
        end
      end
    | ret => Err (nvmlIndexedErrorf "nvml device handle" i ret)
    end
  end.

(** [nvmlProcessPIDs]: the distinct pids active on any device, ascending. *)
Definition nvmlProcessPIDs (w : World) : result error (list N) :=
  match nvml_Init w with
  | SUCCESS =>
    match nvml_DeviceGetCount w with
    | SUCCESS =>
      match nvmlDeviceLoop (nvml_devices w) 0 ∅ with
      | Err err => Err err
      | Ok pidSet => Ok (merge_sort N.le (elements pidSet))
      end
    | ret => Err (wrapNVMLAvailabilityError "nvml device count" ret)
    end
  | ret => Err (wrapNVMLAvailabilityError "nvml init" ret)
  end.

Fixpoint firstNonEmpty (values : list string) : string :=
  match values with
  | [] => ""
  | val :: rest =>
    if negb (is_empty (TrimSpace val)) then TrimSpace val else firstNonEmpty rest
  end.

(** The truncation of the command label at the end of [collectProcessInfo]. *)
Definition truncateCommand (command : string) : string :=
  let limit := maxCommandLabelLength in
  if (limit <? len command)%nat then
    let rs := runes command in
    if (limit <? length rs)%nat then string_of_runes (firstn limit rs)
    else byte_prefix limit command
  else command.

Definition collectProcessInfo (w : World) (pid : N) (fallbackName : string)
    : result error (processMetadata * float64 * float64) :=
  match process_NewProcess w (int32_of_uint pid) with
  | Err err => Err err
  | Ok proc =>
    let name := match proc_Name proc with Ok name => name | Err _ => "" end in
    let uid :=
      match proc_Uids proc with
      | Ok (uid0 :: _) => FormatInt (Z.of_N uid0)
      | _ => unknownProcessLabel
      end in
    let cmdline :=
      let '(cmdline, err) := proc_Cmdline proc in
      if is_Some_b err || is_empty (TrimSpace cmdline) then
        match proc_CmdlineSlice proc with
        | Ok (arg :: args) => Join (arg :: args) " "
        | _ => cmdline
        end
      else cmdline in
    match proc_MemoryPercent proc with
    | Err err => Err err
    | Ok memPercent =>
      match proc_Times proc with
      | Err err => Err err
      | Ok times =>
        let meta :=
          {| name := firstNonEmpty [name; fallbackName; unknownProcessLabel];
             uid := firstNonEmpty [uid; unknownProcessLabel];
             command := truncateCommand
               (firstNonEmpty [cmdline; name; fallbackName; unknownProcessLabel]) |} in
        let cpuSeconds := PrimFloat.add (User times) (System times) in
        Ok (meta, memPercent, cpuSeconds)
      end
    end
  end.

Definition sanitizeBytes (w : World) (value : Z) : float64 :=
  if (value <=? 0) || dcgm_IsInt64Blank w value then 0%float
  else float64_of_int value.

Definition processCPUPercent (c : gpuProcessCollector) (pid : N)
    (procSeconds systemDelta : float64) (hasSystemDelta : bool) (numCPU : Z)
    : gpuProcessCollector * float64 :=
  let '(prev, ok) := map_index {| cpuSeconds := 0 |} (cpuSamples c) pid in
  let c := {| cpuSamples := <[pid := {| cpuSeconds := procSeconds |}]> (cpuSamples c);
              systemSample := systemSample c |} in
  if negb ok || negb hasSystemDelta || (systemDelta <=? 0)%float then (c, 0%float)
  else if (procSeconds <=? cpuSeconds prev)%float then (c, 0%float)
  else
    let processDelta := (procSeconds - cpuSeconds prev)%float in
    (c, (processDelta / systemDelta * float64_of_int numCPU * 100)%float).

(** The keys a [range] over the map visits (in an order Go leaves open). *)
Definition map_keys {V : Type} (m : gmap N V) : list N := (map_to_list m).*1.

Definition pruneCPUSamples (c : gpuProcessCollector) (active : list N)
    : gpuProcessCollector :=
  if (size (cpuSamples c) =? 0)%nat then c
  else
    let activeSet : gset N := foldl (fun set pid => {[pid]} ∪ set) ∅ active in
    {| cpuSamples :=
         foldl (fun samples pid =>
                  if bool_decide (pid ∈ activeSet) then samples else delete pid samples)
               (cpuSamples c) (map_keys (cpuSamples c));
       systemSample := systemSample c |}.

Definition resetCPUSamples (c : gpuProcessCollector) : gpuProcessCollector :=
  {| cpuSamples := foldl (fun samples pid => delete pid samples)
                         (cpuSamples c) (map_keys (cpuSamples c));
     systemSample := {| totalSeconds := 0; initialized := false |} |}.

Definition updateSystemSample (c : gpuProcessCollector) (total : float64)
    : gpuProcessCollector * float64 * bool :=
  if negb (initialized (systemSample c)) then
    ({| cpuSamples := cpuSamples c;
        systemSample := {| totalSeconds := total; initialized := true |} |},
     0%float, false)
  else
    let delta :=
      if (totalSeconds (systemSample c) <=? total)%float   (* total >= previous *)
      then (total - totalSeconds (systemSample c))%float
      else 0%float in
    let c := {| cpuSamples := cpuSamples c;
                systemSample := {| totalSeconds := total;
                                   initialized := initialized (systemSample c) |} |} in
    if (delta <=? 0)%float then (c, 0%float, false) else (c, delta, true).

Definition readTotalCPUSeconds (w : World) : result error float64 :=
  match cpu_Times w with
  | Err err => Err err
  | Ok [] => Err (errorNew "cpu times unavailable")
  | Ok (ts :: _) =>
    Ok (User ts + System ts + Nice ts + Irq ts + Softirq ts
        + Steal ts + Idle ts + Iowait ts + Guest ts + GuestNice ts)%float
  end.

(** The three series of one [dcgm.ProcessInfo] entry of a process. *)
Definition processSeries (w : World) (hostname : string) (meta : processMetadata)
    (cpuPercent memPercent : float64) (info : dcgmProcessInfo) : list Metric :=
  let labels := [hostname; FormatUint (info_GPU info); FormatUint (info_PID info);
                 name meta; uid meta; command meta] in
  [gauge processGPUMem (sanitizeBytes w (info_GlobalUsed info)) labels;
   gauge processCPU cpuPercent labels;
   gauge processMem memPercent labels].

(** One iteration of the loop of [Update] over the active pids; [ch] holds
    what was sent so far. A pid whose lookup fails is skipped. *)
Definition updateProcess (w : World) (hostname : string)
    (systemDelta : float64) (hasSystemDelta : bool) (numCPU : Z)
    (st : gpuProcessCollector * list Metric) (pid : N)
    : gpuProcessCollector * list Metric :=
  let '(c, ch) := st in
  match dcgm_GetProcessInfo w pid with
  | Err _ => (c, ch)
  | Ok [] => (c, ch)
  | Ok ((info0 :: _) as infos) =>
    match collectProcessInfo w pid (info_Name info0) with
    | Err _ => (c, ch)
    | Ok (meta, memPercent, procCPUSeconds) =>
      let '(c, cpuPercent) :=
        processCPUPercent c pid procCPUSeconds systemDelta hasSystemDelta numCPU in
      let cpuPercent := if (cpuPercent <? 0)%float then 0%float else cpuPercent in
      let memPercent := if (memPercent <? 0)%float then 0%float else memPercent in
      (c, ch ++ flat_map (processSeries w hostname meta cpuPercent memPercent) infos)
    end
  end.

(** The method [Update] of [gpuProcessCollector]: the new state, the metrics sent and the
    error returned. *)
Definition Update (w : World) (c : gpuProcessCollector)
    : gpuProcessCollector * list Metric * option error :=
  let hostname := hostNameOrDefault w in
  match nvmlProcessPIDs w with
  | Err err =>
    if errors_Is err errGPUProcessInfoUnavailable then (c, [], None)
    else (c, [], Some (wrapf "list gpu processes" err))
  | Ok pids =>
    if (length pids =? 0)%nat then (resetCPUSamples c, [], None)
    else
      match readTotalCPUSeconds w with
      | Err err => (c, [], Some (wrapf "read system cpu seconds" err))
      | Ok totalSeconds =>
        let '(c, systemDelta, hasSystemDelta) := updateSystemSample c totalSeconds in
        let numCPU := NumCPU w in
        match dcgm_Init w with
        | Some err => (c, [], Some (wrapf "init dcgm" err))
        | None =>
          match dcgm_WatchPidFields w with
          | Some err => (c, [], Some (wrapf "watch pid fields" err))
          | None =>
            let '(c, ch) :=
              foldl (updateProcess w hostname systemDelta hasSystemDelta numCPU)
                    (c, []) pids in
            (pruneCPUSamples c pids, ch, None)
          end
        end
      end
  end.

(** ** The orchestrator (metrics.go of the collector package) *)

(** The [Collector] interface: an object with an [Update] method. *)
Record Collector : Type := {
  collector_state : Type;
  collector_self : collector_state;
  collector_Update :
    World -> collector_state -> collector_state * list Metric * option error
}.

(** [c.Update(ch)] on an object behind the interface. *)
Definition call_Update (w : World) (c : Collector)
    : Collector * list Metric * option error :=
  let '(self, ch, err) := collector_Update c w (collector_self c) in
  ({| collector_state := collector_state c;
      collector_self := self;
      collector_Update := collector_Update c |}, ch, err).

(** A pointer to a [gpuProcessCollector] implements [Collector]. *)
Definition gpu_process (c : gpuProcessCollector) : Collector :=
  {| collector_state := gpuProcessCollector;
     collector_self := c;
     collector_Update := Update |}.

(** [execute]: the collector's metrics, then its two meta-metrics. Both error
    branches differ in the log line only. *)
Definition execute (w : World) (name : string) (c : Collector)
    : Collector * list Metric :=
  let '(c, ch, err) := call_Update w c in
  let duration := elapsed_seconds w name in
  let success :=
    match err with
    | Some err => if IsNoDataError err then 0%float else 0%float
    | None => 1%float
    end in
  (c, ch ++ [gauge scrapeDurationDesc duration [name];
             gauge scrapeSuccessDesc success [name]]).

(** [NvidiaGPUCollector.Collectors]. *)
Abbreviation Collectors := (gmap string Collector).

(** What each goroutine of [Collect] sends on the channel, in its own order. *)
Definition Collect_goroutines (w : World) (n : Collectors) : list (list Metric) :=
  map (fun '(name, c) => snd (execute w name c)) (map_to_list n).

(** The collectors after [Collect] has waited for every goroutine. *)
Definition Collect_state (w : World) (n : Collectors) : Collectors :=
  map_imap (fun name c => Some (fst (execute w name c))) n.

(** The goroutines run concurrently: the channel carries an interleaving of
    their sends. *)
Inductive interleaves : list (list Metric) -> list Metric -> Prop :=
  | interleaves_done : forall seqs,
      Forall (fun s => s = []) seqs -> interleaves seqs []
  | interleaves_send : forall before m s after out,
      interleaves (before ++ s :: after) out ->
      interleaves (before ++ (m :: s) :: after) (m :: out).

(** [Collect] may send [out] on the channel. *)
Definition Collect (w : World) (n : Collectors) (out : list Metric) : Prop :=
  interleaves (Collect_goroutines w n) out.

(** The schedule that runs the goroutines one after the other. *)
Definition Collect_sequential (w : World) (n : Collectors) : list Metric :=
  concat (Collect_goroutines w n).

(** ** Two scrapes on one collector instance

    [Update] takes no lock: the accesses of two concurrent calls to the shared
    [systemSample] field interleave. [updateSystemSample] as the accesses it
    makes: it reads the stored sample, then writes the new one. *)

Inductive steps (A : Type) : Type :=
  | ret (a : A)
  | read_systemSample (k : systemCPUSample -> steps A)
  | write_systemSample (s : systemCPUSample) (k : steps A).
Arguments ret {A} a.
Arguments read_systemSample {A} k.
Arguments write_systemSample {A} s k.

Definition updateSystemSample_steps (total : float64) : steps (float64 * bool) :=
  read_systemSample (fun stored =>
    if negb (initialized stored) then
      write_systemSample {| totalSeconds := total; initialized := true |}
        (ret (0%float, false))
    else
      let delta :=
        if (totalSeconds stored <=? total)%float
        then (total - totalSeconds stored)%float
        else 0%float in
      write_systemSample {| totalSeconds := total; initialized := initialized stored |}
        (ret (if (delta <=? 0)%float then (0%float, false) else (delta, true)))).

(** One access of a goroutine on the shared field. *)
Definition step {A : Type} (p : steps A) (shared : systemCPUSample)
    : steps A * systemCPUSample :=
  match p with
  | ret a => (ret a, shared)
  | read_systemSample k => (k shared, shared)
  | write_systemSample s k => (k, s)
  end.

(** A goroutine running alone, to its end. *)
Fixpoint run {A : Type} (p : steps A) (shared : systemCPUSample)
    : A * systemCPUSample :=
  match p with
  | ret a => (a, shared)
  | read_systemSample k => run (k shared) shared
  | write_systemSample s k => run k s
  end.

(** Two goroutines under a schedule: [true] lets the first one make its next
    access, [false] the second one. *)
Fixpoint run2 {A : Type} (schedule : list bool) (p q : steps A)
    (shared : systemCPUSample) : steps A * steps A * systemCPUSample :=
  match schedule with
  | [] => (p, q, shared)
  | true :: schedule =>
    let '(p, shared) := step p shared in run2 schedule p q shared
  | false :: schedule =>
    let '(q, shared) := step q shared in run2 schedule p q shared
  end.

(** ** Vocabulary of the statements *)

(** A pid whose lookups all succeed in this cycle: DCGM reports at least one
    entry for it and the host process can be read. *)
Definition sampled (w : World) (pid : N) : bool :=
  match dcgm_GetProcessInfo w pid with
  | Ok (info0 :: _) =>
    match collectProcessInfo w pid (info_Name info0) with
    | Ok _ => true
    | Err _ => false
    end
  | _ => false
  end.

(** The collector after one scrape cycle in each of the worlds [ws]. *)
Definition cycles (ws : list World) (c : gpuProcessCollector) : gpuProcessCollector :=
  foldl (fun c w => fst (fst (Update w c))) c ws.

(** The return codes that [wrapNVMLAvailabilityError] turns into the
    distinguished unavailability error. *)
Definition unavailable_code (ret : nvmlReturn) : bool :=
  match ret with
  | ERROR_UNINITIALIZED | ERROR_LIBRARY_NOT_FOUND | ERROR_DRIVER_NOT_LOADED
  | ERROR_NOT_SUPPORTED | ERROR_NO_PERMISSION | ERROR_UNKNOWN => true
  | _ => false
  end.

(** The return codes on which [addNVMLProcessInfo] takes a process query of
    a device as answering nothing. *)
Definition process_query_unavailable (ret : nvmlReturn) : bool :=
  match ret with
  | ERROR_NOT_SUPPORTED | ERROR_NO_PERMISSION | ERROR_NOT_FOUND => true
  | _ => false
  end.

(** A device whose handle is given and whose two process queries are
    unavailable. *)
Definition device_unavailable (device : nvmlDevice) : bool :=
  match handleRet device with
  | SUCCESS =>
    process_query_unavailable (snd (computeRunningProcesses device))
    && process_query_unavailable (snd (graphicsRunningProcesses device))
  | _ => false
  end.

Definition is_SUCCESS (ret : nvmlReturn) : bool :=
  match ret with SUCCESS => true | _ => false end.

(** GPU process enumeration reports the capability as unavailable: at
    [nvml.Init], at [nvml.DeviceGetCount], or at the process queries of
    every device. *)
Definition enumeration_unavailable (w : World) : bool :=
  unavailable_code (nvml_Init w)
  || is_SUCCESS (nvml_Init w) && unavailable_code (nvml_DeviceGetCount w)
  || is_SUCCESS (nvml_Init w) && is_SUCCESS (nvml_DeviceGetCount w)
     && forallb device_unavailable (nvml_devices w).

(** A meta-metric of the orchestrator for the collector [name]. *)
Definition is_meta (desc : Desc) (name : string) (m : Metric) : bool :=
  Desc_eqb (metric_desc m) desc && bool_decide (metric_labels m = [name]).

(** The value of the success gauge for the outcome of [Update]. *)
Definition success_value (err : option error) : float64 :=
  match err with Some _ => 0%float | None => 1%float end.

(** A collector whose [Update] sends nothing and fails with [err]. *)
Definition failing_collector (err : error) : Collector :=
  {| collector_state := unit;
     collector_self := tt;
     collector_Update := fun _ self => (self, [], Some err) |}.

(** A CPU series, if it is one, reports 0. *)
Definition cpu_zero (m : Metric) : Prop :=
  metric_desc m = processCPU -> metric_value m = 0%float.

(** A metric under one of the two descriptors of the orchestrator. *)
Definition meta_desc (m : Metric) : bool :=
  Desc_eqb (metric_desc m) scrapeDurationDesc
  || Desc_eqb (metric_desc m) scrapeSuccessDesc.

(** Classes of an IEEE value ([spec_float] is the Standard Library's reading
    of a binary64 float): strictly below zero, a zero, a number (zero or
    finite), not a number. *)
Definition sf_neg (s : spec_float) : bool :=
  match s with
  | S754_finite true _ _ | S754_infinity true => true
  | _ => false
  end.

Definition sf_zero (s : spec_float) : bool :=
  match s with S754_zero _ => true | _ => false end.

Definition sf_finite (s : spec_float) : bool :=
  match s with S754_zero _ | S754_finite _ _ _ => true | _ => false end.

Definition sf_nan (s : spec_float) : bool :=
  match s with S754_nan => true | _ => false end.

(** The integer that [SFsub] rounds for two finite floats: the difference of
    the signed mantissas at the smaller exponent. *)
Definition aligned_diff (sx : bool) (mx : positive) (ex : Z)
    (sy : bool) (my : positive) (ey : Z) : Z :=
  cond_Zopp sx (Z.pos (fst (shl_align mx ex (Z.min ex ey))))
  - cond_Zopp sy (Z.pos (fst (shl_align my ey (Z.min ex ey)))).

(** ** Example worlds

    A host named [gpu-node-1] with 8 logical CPUs and one GPU, on which
    process 42 (a Python job of user 1000) holds 1024 bytes of GPU memory. *)

Definition example_times (user system idle : float64) : TimesStat :=
  {| User := user; System := system; Nice := 0; Irq := 0; Softirq := 0;
     Steal := 0; Idle := idle; Iowait := 0; Guest := 0; GuestNice := 0 |}.

Definition example_process (cmdline : string) (user : float64) : hostProcess :=
  {| proc_Name := Ok "python";
     proc_Uids := Ok [1000%N];
     proc_Cmdline := (cmdline, None);
     proc_CmdlineSlice := Ok [cmdline];
     proc_MemoryPercent := Ok 1.5%float;
     proc_Times := Ok (example_times user 0 0) |}.

Definition example_device (pids : list N) : nvmlDevice :=
  {| handleRet := SUCCESS;
     computeRunningProcesses :=
       (map (fun pid => {| Pid := pid; UsedGpuMemory := 1024 |}) pids, SUCCESS);
     graphicsRunningProcesses := ([], ERROR_NOT_SUPPORTED) |}.

Definition example_info (pid : N) : result error (list dcgmProcessInfo) :=
  Ok [{| info_GPU := 0; info_PID := pid; info_Name := "python";
         info_GlobalUsed := 1024 |}].

(** The world in which NVML answers [init] to [nvml.Init], the device runs
    the processes [pids], DCGM answers [getInfo], the system has accumulated
    [total] CPU-seconds and every process has command line [cmdline] and
    [user] CPU-seconds. *)
Definition example_world (init : nvmlReturn) (pids : list N)
    (getInfo : N -> result error (list dcgmProcessInfo))
    (total : float64) (cmdline : string) (user : float64) : World :=
  {| os_Hostname := Ok "gpu-node-1";
     env_NODE_NAME := "";
     NumCPU := 8;
     elapsed_seconds := fun _ => 0.25%float;
     nvml_Init := init;
     nvml_DeviceGetCount := SUCCESS;
     nvml_devices := [example_device pids];
     dcgm_Init := None;
     dcgm_WatchPidFields := None;
     dcgm_GetProcessInfo := getInfo;
     dcgm_IsInt64Blank := fun value => 9223372036854775792 <=? value;
     cpu_Times := Ok [example_times 0 0 total];
     process_NewProcess := fun _ => Ok (example_process cmdline user) |}.

(** The same host when [os.Hostname] answers [hostname] and the environment
    holds [nodeName] for NODE_NAME. *)
Definition example_host (hostname : result error string) (nodeName : string) : World :=
  {| os_Hostname := hostname;
     env_NODE_NAME := nodeName;
     NumCPU := 8;
     elapsed_seconds := fun _ => 0.25%float;
     nvml_Init := SUCCESS;
     nvml_DeviceGetCount := SUCCESS;
     nvml_devices := [example_device [42%N]];
     dcgm_Init := None;
     dcgm_WatchPidFields := None;
     dcgm_GetProcessInfo := example_info;
     dcgm_IsInt64Blank := fun value => 9223372036854775792 <=? value;
     cpu_Times := Ok [example_times 0 0 110];
     process_NewProcess := fun _ => Ok (example_process "python train.py" 3) |}.

(** A collector that has sampled process 42 at 2.0 CPU-seconds and the system
    at 100.0 CPU-seconds. *)
Definition example_collector : gpuProcessCollector :=
  {| cpuSamples := {[ 42%N := {| cpuSeconds := 2 |} ]};
     systemSample := {| totalSeconds := 100; initialized := true |} |}.

(** ** Vocabulary of the further properties *)

(** The pids one process query of a device contributes: those of a
    successful query, pid 0 apart. *)
Definition reported_pids (getter : list nvmlProcessInfo * nvmlReturn) : list N :=
  match snd getter with
  | SUCCESS => List.filter (fun pid => negb (pid =? 0)%N) (map Pid (fst getter))
  | _ => []
  end.

(** The pids active on a device, in a compute or in a graphics context. *)
Definition device_pids (device : nvmlDevice) : list N :=
  reported_pids (computeRunningProcesses device)
  ++ reported_pids (graphicsRunningProcesses device).

(** A process query that fails with a code [addNVMLProcessInfo] does not
    take as "nothing to report". *)
Definition query_fault (ret : nvmlReturn) : bool :=
  match ret with
  | SUCCESS | ERROR_NOT_SUPPORTED | ERROR_NO_PERMISSION | ERROR_NOT_FOUND => false
  | _ => true
  end.

(** A device whose handle or one of whose process queries fails. *)
Definition device_fault (device : nvmlDevice) : bool :=
  negb (is_SUCCESS (handleRet device))
  || query_fault (snd (computeRunningProcesses device))
  || query_fault (snd (graphicsRunningProcesses device)).

(** Enumeration fails, and not with the unavailability error. *)
Definition enumeration_fault (w : World) : bool :=
  negb (is_SUCCESS (nvml_Init w)) && negb (unavailable_code (nvml_Init w))
  || is_SUCCESS (nvml_Init w) && negb (is_SUCCESS (nvml_DeviceGetCount w))
     && negb (unavailable_code (nvml_DeviceGetCount w))
  || is_SUCCESS (nvml_Init w) && is_SUCCESS (nvml_DeviceGetCount w)
     && existsb device_fault (nvml_devices w).

(** A value that is not below zero. *)
Definition not_negative (m : Metric) : Prop :=
  (metric_value m <? 0)%float = false.

(** The sample a cycle takes of a pid: its cumulative CPU-seconds, when the
    lookups of the pid succeed. *)
Definition current_sample (w : World) (pid : N) : option cpuSample :=
  match dcgm_GetProcessInfo w pid with
  | Ok (info0 :: _) =>
    match collectProcessInfo w pid (info_Name info0) with
    | Ok (_, _, procCPUSeconds) => Some {| cpuSeconds := procCPUSeconds |}
    | Err _ => None
    end
  | _ => None
  end.

(** What the loop of [Update] sends for one pid when the collector holds the
    samples of [c] at that iteration. *)
Definition pidSeries (w : World) (c : gpuProcessCollector)
    (systemDelta : float64) (hasSystemDelta : bool) (pid : N) : list Metric :=
  snd (updateProcess w (hostNameOrDefault w) systemDelta hasSystemDelta (NumCPU w)
                     (c, []) pid).

(** A Unicode scalar value: a code point that is no surrogate half. *)
Definition valid_rune (r : N) : bool :=
  ((r <? 55296) || ((57343 <? r) && (r <=? 1114111)))%N.

(** The rune [utf8.EncodeRune] writes for [r]. *)
Definition scalar (r : N) : N := if valid_rune r then r else RuneError.

(** A process of which the host knows neither a name nor a command line, and
    whose owner cannot be read. *)
Definition example_nameless : hostProcess :=
  {| proc_Name := Err (hostError "no such process");
     proc_Uids := Err (hostError "permission denied");
     proc_Cmdline := ("   ", None);
     proc_CmdlineSlice := Ok [];
     proc_MemoryPercent := Ok 1.5%float;
     proc_Times := Ok (example_times 3 0 0) |}.

Definition example_nameless_world : World :=
  {| os_Hostname := Ok "gpu-node-1";
     env_NODE_NAME := "";
     NumCPU := 8;
     elapsed_seconds := fun _ => 0.25%float;
     nvml_Init := SUCCESS;
     nvml_DeviceGetCount := SUCCESS;
     nvml_devices := [example_device [42%N]];
     dcgm_Init := None;
     dcgm_WatchPidFields := None;
     dcgm_GetProcessInfo := example_info;
     dcgm_IsInt64Blank := fun value => 9223372036854775792 <=? value;
     cpu_Times := Ok [example_times 0 0 110];
     process_NewProcess := fun _ => Ok example_nameless |}.

(** * Properties *)

(** ** binary64 arithmetic: the sign of a difference, a quotient, a product *)

Ltac norm_Z :=
  change IntDef.Z.add with Z.add in *;
  change IntDef.Z.sub with Z.sub in *;
  change IntDef.Z.max with Z.max in *;
  change IntDef.Z.min with Z.min in *;
  change IntDef.Z.even with Z.even in *.

Section SpecFloat.

Lemma SFltb_zero s : SFltb s (S754_zero false) = sf_neg s.
Proof. destruct s as [[]|[]| |[] m e]; reflexivity. Qed.

Lemma SFleb_zero_false y :
  SFleb y (S754_zero false) = false ->
  match y with S754_zero _ => False | _ => sf_neg y = false end.
Proof. destruct y as [[]|[]| |[] m e]; cbv; congruence. Qed.

Lemma SFcompare_antisym x y :
  SFcompare y x = option_map CompOpp (SFcompare x y).
Proof.
  destruct x as [sx|sx| |sx mx ex], y as [sy|sy| |sy my ey];
    try reflexivity;
    try (destruct sx, sy; reflexivity);
    try (destruct sx; reflexivity);
    try (destruct sy; reflexivity).
  unfold SFcompare.
  change (PosDef.Pos.compare_cont Eq) with Pos.compare.
  rewrite (Z.compare_antisym ex ey), (Pos.compare_antisym mx my).
  destruct sx, sy; try reflexivity;
    destruct (ex ?= ey); try reflexivity;
    destruct (mx ?= my)%positive; reflexivity.
Qed.

(** *** Rounding keeps the sign, and neither loses a non-zero value nor
    makes up a NaN *)

Lemma binary_round_aux_shape s m e l :
  match binary_round_aux prec emax s m e l with
  | S754_zero s' | S754_infinity s' | S754_finite s' _ _ => s' = s
  | S754_nan => True
  end.
Proof.
  unfold binary_round_aux.
  destruct (shr_fexp prec emax m e l) as [mrs' e'].
  destruct (shr_fexp prec emax _ e' loc_Exact) as [mrs'' e''].
  destruct (shr_m mrs'') as [|p|p]; try reflexivity; try exact I.
  destruct (_ <=? _); reflexivity.
Qed.

Lemma binary_round_aux_sign s m e l :
  sf_neg (binary_round_aux prec emax s m e l) = true -> s = true.
Proof.
  pose proof (binary_round_aux_shape s m e l) as Hs.
  destruct (binary_round_aux _ _ _ _ _ _) as [s'|s'| |s' m' e'];
    simpl; try discriminate; subst s'; destruct s; congruence.
Qed.

Lemma shr_1_nonneg mrs : 0 <= shr_m mrs -> 0 <= shr_m (shr_1 mrs).
Proof. destruct mrs as [[|[p|p|]|[p|p|]] r s]; simpl; lia. Qed.

Lemma shr_1_pow j mrs :
  0 <= j -> 2 ^ (j + 1) <= shr_m mrs -> 2 ^ j <= shr_m (shr_1 mrs).
Proof.
  intros Hj. rewrite Z.pow_add_r by lia. change (2 ^ 1) with 2.
  pose proof (Z.pow_pos_nonneg 2 j ltac:(lia) Hj).
  destruct mrs as [[|[p|p|]|[p|p|]] r s]; simpl; lia.
Qed.

Lemma iter_pos_invariant {A} (P : A -> Prop) (f : A -> A) :
  (forall x, P x -> P (f x)) ->
  forall n x, P x -> P (SpecFloat.iter_pos f n x).
Proof.
  intros Hf. induction n as [n IH|n IH|]; simpl; intros x Hx; auto.
Qed.

Lemma iter_shr_1_pow n : forall j mrs,
  0 <= j -> 2 ^ (j + Z.pos n) <= shr_m mrs ->
  2 ^ j <= shr_m (SpecFloat.iter_pos shr_1 n mrs).
Proof.
  induction n as [n IH|n IH|]; simpl; intros j mrs Hj H.
  - apply IH; [lia|]. apply IH; [lia|]. apply shr_1_pow; [lia|].
    replace (j + Z.pos n + Z.pos n + 1) with (j + Z.pos n~1) by lia. exact H.
  - apply IH; [lia|]. apply IH; [lia|].
    replace (j + Z.pos n + Z.pos n) with (j + Z.pos n~0) by lia. exact H.
  - apply shr_1_pow; assumption.
Qed.

Lemma digits2_pos_bounds m :
  2 ^ (Z.pos (digits2_pos m) - 1) <= Z.pos m < 2 ^ Z.pos (digits2_pos m).
Proof.
  induction m as [m IH|m IH|]; simpl digits2_pos.
  - rewrite Pos2Z.inj_succ.
    replace (Z.succ (Z.pos (digits2_pos m)) - 1)
      with (Z.succ (Z.pos (digits2_pos m) - 1)) by lia.
    rewrite !Z.pow_succ_r by lia. lia.
  - rewrite Pos2Z.inj_succ.
    replace (Z.succ (Z.pos (digits2_pos m)) - 1)
      with (Z.succ (Z.pos (digits2_pos m) - 1)) by lia.
    rewrite !Z.pow_succ_r by lia. lia.
  - simpl. lia.
Qed.

Lemma shr_fexp_nonneg m e l :
  0 <= m -> 0 <= shr_m (fst (shr_fexp prec emax m e l)).
Proof.
  intros Hm. unfold shr_fexp, shr.
  assert (H0 : 0 <= shr_m (shr_record_of_loc m l))
    by (destruct l as [|[]]; exact Hm).
  destruct (_ - e) as [|p|p]; simpl fst; try exact H0.
  apply (iter_pos_invariant (fun r => 0 <= shr_m r));
    [apply shr_1_nonneg | exact H0].
Qed.

(** Above the smallest exponent the shift drops fewer bits than the
    mantissa has. *)
Lemma shr_fexp_pos m e l :
  0 < m -> SpecFloat.emin prec emax <= e ->
  0 < shr_m (fst (shr_fexp prec emax m e l))
  /\ SpecFloat.emin prec emax <= snd (shr_fexp prec emax m e l).
Proof.
  intros Hm He. unfold shr_fexp, shr, fexp.
  assert (Hemin : SpecFloat.emin prec emax = -1074) by reflexivity.
  assert (Hprec : prec = 53) by reflexivity.
  assert (H0 : shr_m (shr_record_of_loc m l) = m)
    by (destruct l as [|[]]; reflexivity).
  destruct m as [|p|p]; try lia. cbn [Zdigits2].
  pose proof (digits2_pos_bounds p) as [Hlo _].
  set (d := Z.pos (digits2_pos p)) in *.
  destruct (_ - e) as [|n|n] eqn:E; cbn [fst snd]; try (rewrite H0; lia).
  norm_Z. split; [|lia].
  assert (Hn : Z.pos n = d - prec) by lia.
  assert (H1 : 2 ^ 0 <= shr_m (SpecFloat.iter_pos shr_1 n
                                 (shr_record_of_loc (Z.pos p) l))).
  { apply iter_shr_1_pow; [lia|]. rewrite H0.
    eapply Z.le_trans; [|exact Hlo]. apply Z.pow_le_mono_r; lia. }
  change (2 ^ 0) with 1 in H1. lia.
Qed.

Lemma round_nearest_even_ge m l : m <= round_nearest_even m l.
Proof.
  unfold round_nearest_even.
  destruct l as [|[]]; try destruct (IntDef.Z.even m); lia.
Qed.

Lemma binary_round_aux_not_nan s m e l :
  0 <= m -> sf_nan (binary_round_aux prec emax s m e l) = false.
Proof.
  intros Hm. unfold binary_round_aux.
  pose proof (shr_fexp_nonneg m e l Hm) as H1.
  destruct (shr_fexp prec emax m e l) as [mrs' e']. simpl fst in H1.
  pose proof (round_nearest_even_ge (shr_m mrs') (loc_of_shr_record mrs')) as Hr.
  pose proof (shr_fexp_nonneg
                (round_nearest_even (shr_m mrs') (loc_of_shr_record mrs'))
                e' loc_Exact ltac:(lia)) as H2.
  destruct (shr_fexp prec emax _ e' loc_Exact) as [mrs'' e'']. simpl fst in H2.
  destruct (shr_m mrs'') as [|p|p]; try reflexivity; try lia.
  destruct (_ <=? _); reflexivity.
Qed.

Lemma binary_round_aux_not_zero s m e l :
  0 < m -> SpecFloat.emin prec emax <= e ->
  sf_zero (binary_round_aux prec emax s m e l) = false.
Proof.
  intros Hm He. unfold binary_round_aux.
  pose proof (shr_fexp_pos m e l Hm He) as [H1 H1e].
  destruct (shr_fexp prec emax m e l) as [mrs' e']. cbn [fst snd] in H1, H1e.
  pose proof (round_nearest_even_ge (shr_m mrs') (loc_of_shr_record mrs')) as Hr.
  pose proof (shr_fexp_pos
                (round_nearest_even (shr_m mrs') (loc_of_shr_record mrs'))
                e' loc_Exact ltac:(lia) H1e) as [H2 _].
  destruct (shr_fexp prec emax _ e' loc_Exact) as [mrs'' e'']. cbn [fst] in H2.
  destruct (shr_m mrs'') as [|p|p]; try lia.
  destruct (_ <=? _); reflexivity.
Qed.

Lemma binary_normalize_sign m e :
  sf_neg (binary_normalize prec emax m e false) = true -> m < 0.
Proof.
  destruct m as [|p|p]; simpl; try discriminate; try lia.
  unfold binary_round. destruct (shl_align _ _ _) as [mz ez].
  intros H. apply binary_round_aux_sign in H. discriminate.
Qed.

Lemma binary_normalize_not_nan m e :
  sf_nan (binary_normalize prec emax m e false) = false.
Proof.
  destruct m as [|p|p]; simpl; try reflexivity;
    unfold binary_round; destruct (shl_align _ _ _) as [mz ez];
    apply binary_round_aux_not_nan; lia.
Qed.

Lemma binary_normalize_not_zero m e :
  m <> 0 -> SpecFloat.emin prec emax <= e ->
  sf_zero (binary_normalize prec emax m e false) = false.
Proof.
  intros Hm He.
  destruct m as [|p|p]; try lia; simpl; unfold binary_round;
    destruct (shl_align _ _ _) as [mz ez] eqn:E;
    apply binary_round_aux_not_zero; try lia;
    unfold shl_align in E; destruct (_ - e) in E; inversion E; subst;
    unfold fexp; norm_Z; lia.
Qed.

Lemma binary_normalize_pos m e :
  0 < m -> SpecFloat.emin prec emax <= e ->
  SFltb (S754_zero false) (binary_normalize prec emax m e false) = true.
Proof.
  intros Hm He.
  pose proof (binary_normalize_not_zero m e ltac:(lia) He) as Hz.
  pose proof (binary_normalize_not_nan m e) as Hn.
  destruct m as [|p|p]; try lia. simpl in *. unfold binary_round in *.
  destruct (shl_align _ _ _) as [mz ez].
  pose proof (binary_round_aux_shape false (Z.pos mz) ez loc_Exact) as Hs.
  destruct (binary_round_aux _ _ _ _ _ _) as [s'|s'| |s' m' e'];
    try discriminate; subst s'; reflexivity.
Qed.

Lemma binary_normalize_neg m e :
  m < 0 -> SpecFloat.emin prec emax <= e ->
  SFltb (binary_normalize prec emax m e false) (S754_zero false) = true.
Proof.
  intros Hm He.
  pose proof (binary_normalize_not_zero m e ltac:(lia) He) as Hz.
  pose proof (binary_normalize_not_nan m e) as Hn.
  destruct m as [|p|p]; try lia. simpl in *. unfold binary_round in *.
  destruct (shl_align _ _ _) as [mz ez].
  pose proof (binary_round_aux_shape true (Z.pos mz) ez loc_Exact) as Hs.
  destruct (binary_round_aux _ _ _ _ _ _) as [s'|s'| |s' m' e'];
    try discriminate; subst s'; reflexivity.
Qed.

(** *** Comparison of two finite floats and their aligned mantissas *)

(** A canonical mantissa has at most [prec] bits, and exactly [prec] above
    the smallest exponent. *)
Lemma bounded_mantissa m e :
  bounded prec emax m e = true ->
  SpecFloat.emin prec emax <= e /\ Z.pos m < 2 ^ prec /\
  (SpecFloat.emin prec emax < e -> 2 ^ (prec - 1) <= Z.pos m).
Proof.
  unfold bounded, canonical_mantissa, fexp. intros H.
  apply andb_prop in H as [H _]. apply Z.eqb_eq in H.
  pose proof (digits2_pos_bounds m) as [Hlo Hhi].
  set (d := Z.pos (digits2_pos m)) in *.
  assert (Hd : 0 < d) by (unfold d; lia).
  split; [lia|]. split.
  - assert (d <= prec) by lia.
    eapply Z.lt_le_trans; [exact Hhi|]. apply Z.pow_le_mono_r; lia.
  - intros He. assert (Hp : d = prec) by lia. rewrite <- Hp. exact Hlo.
Qed.

Lemma shl_align_fst m e e' :
  e' <= e -> Z.pos (fst (shl_align m e e')) = Z.pos m * 2 ^ (e - e').
Proof.
  intros He. unfold shl_align.
  destruct (e' - e) as [|d|d] eqn:E; simpl fst.
  - replace (e - e') with 0 by lia. lia.
  - lia.
  - change (PosDef.Pos.iter xO m d) with (shift_pos d m).
    rewrite shift_pos_correct, Zpower.Zpower_pos_nat.
    replace (e - e') with (Z.pos d) by lia.
    rewrite Zpower.Zpower_nat_Z, positive_nat_Z. lia.
Qed.

Lemma pow2_ge_2 k : 1 <= k -> 2 <= 2 ^ k.
Proof.
  intros Hk. change 2 with (2 ^ 1) at 1. apply Z.pow_le_mono_r; lia.
Qed.

Ltac larger_exponent Hlo m k :=
  pose proof (pow2_ge_2 k ltac:(lia));
  specialize (Hlo ltac:(lia));
  assert (Z.pos m * 2 <= Z.pos m * 2 ^ k)
    by (apply Z.mul_le_mono_nonneg_l; lia);
  lia.

Lemma finite_diff_sign sx mx ex sy my ey :
  bounded prec emax mx ex = true ->
  bounded prec emax my ey = true ->
  match SFcompare (S754_finite sx mx ex) (S754_finite sy my ey) with
  | Some Gt => 0 < aligned_diff sx mx ex sy my ey
  | Some Eq => aligned_diff sx mx ex sy my ey = 0
  | Some Lt => aligned_diff sx mx ex sy my ey < 0
  | None => False
  end.
Proof.
  intros Bx By. unfold aligned_diff.
  rewrite !shl_align_fst by lia.
  apply bounded_mantissa in Bx as (Hex & Hxhi & Hxlo).
  apply bounded_mantissa in By as (Hey & Hyhi & Hylo).
  unfold SFcompare.
  change (PosDef.Pos.compare_cont Eq mx my) with (Pos.compare mx my).
  assert (P52 : 2 ^ prec = 2 * 2 ^ (prec - 1)) by reflexivity.
  pose proof (Z.pow_pos_nonneg 2 (ex - Z.min ex ey) ltac:(lia) ltac:(lia)) as Px.
  pose proof (Z.pow_pos_nonneg 2 (ey - Z.min ex ey) ltac:(lia) ltac:(lia)) as Py.
  destruct sx, sy; cbn [cond_Zopp]; try nia.
  - destruct (Z.compare_spec ex ey) as [E|E|E].
    + subst ey. rewrite Z.min_id, Z.sub_diag. change (2 ^ 0) with 1.
      destruct (Pos.compare_spec mx my); cbn [CompOpp]; lia.
    + rewrite Z.min_l by lia. rewrite Z.sub_diag. change (2 ^ 0) with 1.
      larger_exponent Hylo my (ey - ex).
    + rewrite Z.min_r by lia. rewrite Z.sub_diag. change (2 ^ 0) with 1.
      larger_exponent Hxlo mx (ex - ey).
  - destruct (Z.compare_spec ex ey) as [E|E|E].
    + subst ey. rewrite Z.min_id, Z.sub_diag. change (2 ^ 0) with 1.
      destruct (Pos.compare_spec mx my); lia.
    + rewrite Z.min_l by lia. rewrite Z.sub_diag. change (2 ^ 0) with 1.
      larger_exponent Hylo my (ey - ex).
    + rewrite Z.min_r by lia. rewrite Z.sub_diag. change (2 ^ 0) with 1.
      larger_exponent Hxlo mx (ex - ey).
Qed.

(** *** Subtraction, multiplication, division *)

(** The sign of [x - y] is the outcome of comparing [x] with [y]. *)
Lemma SFsub_sign x y :
  valid_binary x = true -> valid_binary y = true ->
  match SFcompare x y with
  | Some Gt => SFltb (S754_zero false) (SFsub prec emax x y) = true
  | Some Lt => SFltb (SFsub prec emax x y) (S754_zero false) = true
  | Some Eq => sf_finite x = true -> sf_zero (SFsub prec emax x y) = true
  | None => sf_nan (SFsub prec emax x y) = true
  end.
Proof.
  intros Vx Vy.
  destruct x as [sx|sx| |sx mx ex], y as [sy|sy| |sy my ey].
  16: { (* two finite floats *)
    pose proof (finite_diff_sign sx mx ex sy my ey Vx Vy) as Hd.
    simpl in Vx, Vy.
    apply bounded_mantissa in Vx as (Hex & _ & _).
    apply bounded_mantissa in Vy as (Hey & _ & _).
    unfold SFsub. fold (aligned_diff sx mx ex sy my ey).
    destruct (SFcompare _ _) as [[]|]; try contradiction.
    - intros _. rewrite Hd. reflexivity.
    - apply binary_normalize_neg; [assumption | norm_Z; lia].
    - apply binary_normalize_pos; [assumption | norm_Z; lia]. }
  all: try reflexivity;
    try (destruct sx, sy; cbv; congruence);
    try (destruct sx; cbv; congruence);
    try (destruct sy; cbv; congruence).
Qed.

Lemma SFsub_not_neg x y :
  valid_binary x = true -> valid_binary y = true ->
  SFltb x y = false -> sf_neg (SFsub prec emax x y) = false.
Proof.
  intros Vx Vy Hlt.
  destruct x as [sx|sx| |sx mx ex], y as [sy|sy| |sy my ey].
  16: { (* two finite floats *)
    pose proof (finite_diff_sign sx mx ex sy my ey Vx Vy) as Hd.
    unfold SFltb in Hlt. unfold SFsub. fold (aligned_diff sx mx ex sy my ey).
    destruct (sf_neg _) eqn:Hn; [|reflexivity].
    apply binary_normalize_sign in Hn.
    destruct (SFcompare _ _) as [[]|]; try discriminate; try contradiction; lia. }
  all: try reflexivity;
    try (destruct sx, sy; cbv in Hlt |- *; congruence);
    try (destruct sx; cbv in Hlt |- *; congruence);
    try (destruct sy; cbv in Hlt |- *; congruence).
Qed.

Lemma SFsub_not_nan x y :
  sf_finite x = true -> sf_nan y = false ->
  sf_nan (SFsub prec emax x y) = false.
Proof.
  intros Hx Hy.
  destruct x as [sx|sx| |sx mx ex], y as [sy|sy| |sy my ey];
    try discriminate; try reflexivity; try (destruct sx, sy; reflexivity).
  unfold SFsub. apply binary_normalize_not_nan.
Qed.

Lemma SFmul_not_neg x y :
  sf_neg x = false -> sf_neg y = false ->
  sf_neg (SFmul prec emax x y) = false.
Proof.
  intros Hx Hy.
  destruct x as [sx|sx| |sx mx ex], y as [sy|sy| |sy my ey];
    try reflexivity;
    try (destruct sx; try destruct sy; simpl in *; congruence);
    try (destruct sy; simpl in *; congruence).
  simpl in Hx, Hy. destruct sx, sy; try discriminate.
  unfold SFmul. destruct (sf_neg _) eqn:Hn; [|reflexivity].
  apply binary_round_aux_sign in Hn. discriminate.
Qed.

Lemma SFdiv_not_neg x y :
  sf_neg x = false -> SFleb y (S754_zero false) = false ->
  sf_neg (SFdiv prec emax x y) = false.
Proof.
  intros Hx Hy. apply SFleb_zero_false in Hy.
  destruct x as [sx|sx| |sx mx ex], y as [sy|sy| |sy my ey];
    try reflexivity; try contradiction;
    try (destruct sx; try destruct sy; simpl in *; congruence);
    try (destruct sy; simpl in *; congruence).
  simpl in Hx, Hy. destruct sx, sy; try discriminate.
  unfold SFdiv. destruct (SFdiv_core_binary _ _ _ _ _ _) as [[mz ez] lz].
  destruct (sf_neg _) eqn:Hn; [|reflexivity].
  apply binary_round_aux_sign in Hn. discriminate.
Qed.

End SpecFloat.

Section Float64.

Implicit Types x y : float64.

Lemma Prim2SF_zero : Prim2SF 0%float = S754_zero false.
Proof. reflexivity. Qed.

Lemma ltb_zero x : (x <? 0)%float = sf_neg (Prim2SF x).
Proof. rewrite ltb_spec. apply SFltb_zero. Qed.

Lemma is_finite_spec x : is_finite x = sf_finite (Prim2SF x).
Proof.
  unfold is_finite, is_nan, is_infinity.
  rewrite !FloatAxioms.eqb_spec, abs_spec.
  change (Prim2SF infinity) with (S754_infinity false).
  destruct (Prim2SF x) as [[]|[]| |[] m e]; try reflexivity.
  all: unfold SFeqb, SFcompare, SFabs;
    rewrite Z.compare_refl, Pos.compare_cont_refl; reflexivity.
Qed.

Lemma is_infinity_spec x :
  is_infinity x =
  match Prim2SF x with S754_infinity _ => true | _ => false end.
Proof.
  unfold is_infinity. rewrite FloatAxioms.eqb_spec, abs_spec.
  change (Prim2SF infinity) with (S754_infinity false).
  destruct (Prim2SF x) as [[]|[]| |[] m e]; reflexivity.
Qed.

Lemma leb_false_ltb_false x y :
  (x <=? y)%float = false -> (x <? y)%float = false.
Proof.
  rewrite leb_spec, ltb_spec. unfold SFleb, SFltb.
  destruct (SFcompare _ _) as [[]|]; congruence.
Qed.

Lemma leb_true_ltb_flip x y :
  (x <=? y)%float = true -> (y <? x)%float = false.
Proof.
  rewrite leb_spec, ltb_spec. unfold SFleb, SFltb.
  rewrite (SFcompare_antisym (Prim2SF x) (Prim2SF y)).
  destruct (SFcompare _ _) as [[]|]; simpl; congruence.
Qed.

Lemma sub_not_neg x y :
  (x <? y)%float = false -> (x - y <? 0)%float = false.
Proof.
  intros H. rewrite ltb_zero, sub_spec.
  apply SFsub_not_neg; try apply Prim2SF_valid.
  now rewrite <- ltb_spec.
Qed.

Lemma mul_not_neg x y :
  (x <? 0)%float = false -> (y <? 0)%float = false ->
  (x * y <? 0)%float = false.
Proof. rewrite !ltb_zero, mul_spec. apply SFmul_not_neg. Qed.

Lemma div_not_neg x y :
  (x <? 0)%float = false -> (y <=? 0)%float = false ->
  (x / y <? 0)%float = false.
Proof. rewrite !ltb_zero, div_spec, leb_spec. apply SFdiv_not_neg. Qed.

Lemma float64_of_int_not_neg n :
  0 <= n -> (float64_of_int n <? 0)%float = false.
Proof.
  intros Hn. unfold float64_of_int.
  destruct (Z.ltb_spec n 0); [lia|].
  rewrite ltb_zero, of_uint63_spec.
  destruct (sf_neg _) eqn:Hs; [|reflexivity].
  apply binary_normalize_sign in Hs.
  pose proof (Uint63.to_Z_bounded (Uint63.of_Z n)). lia.
Qed.

(** For a finite [x], the difference [x - y] is at most zero exactly when
    [x <= y]. *)
Lemma sub_leb_zero x y :
  is_finite x = true -> (x - y <=? 0)%float = (x <=? y)%float.
Proof.
  rewrite is_finite_spec, !leb_spec, sub_spec, Prim2SF_zero. intros Hx.
  unfold SF64sub.
  pose proof (SFsub_sign _ _ (Prim2SF_valid x) (Prim2SF_valid y)) as Hs.
  unfold SFleb at 2.
  destruct (SFcompare (Prim2SF x) (Prim2SF y)) as [[]|].
  - specialize (Hs Hx).
    destruct (SFsub _ _ _ _) as [[]|[]| |[] m e]; try discriminate; reflexivity.
  - destruct (SFsub _ _ _ _) as [[]|[]| |[] m e]; try discriminate; reflexivity.
  - destruct (SFsub _ _ _ _) as [[]|[]| |[] m e]; try discriminate; reflexivity.
  - destruct (SFsub _ _ _ _) as [[]|[]| |[] m e]; try discriminate; reflexivity.
Qed.

(** With [y <= x], a difference [x - y] that is at most zero is a zero. *)
Lemma sub_eqb_zero x y :
  (y <=? x)%float = true -> (x - y <=? 0)%float = true ->
  (x - y =? 0)%float = true.
Proof.
  intros Hle Hd.
  pose proof (sub_not_neg x y (leb_true_ltb_flip y x Hle)) as Hn.
  rewrite ltb_zero in Hn. rewrite leb_spec, Prim2SF_zero in Hd.
  rewrite FloatAxioms.eqb_spec, Prim2SF_zero.
  destruct (Prim2SF (x - y)) as [[]|[]| |[] m e]; try discriminate; reflexivity.
Qed.

(** With [y <= x], a difference [x - y] that is not at most zero is
    strictly positive, unless [x] is infinite. *)
Lemma sub_positive x y :
  (y <=? x)%float = true -> (x - y <=? 0)%float = false ->
  (0 <? x - y)%float = true \/ is_infinity x = true.
Proof.
  intros Hle Hd.
  pose proof (sub_not_neg x y (leb_true_ltb_flip y x Hle)) as Hn.
  rewrite ltb_zero in Hn. rewrite leb_spec, Prim2SF_zero in Hd.
  rewrite ltb_spec, Prim2SF_zero, is_infinity_spec.
  rewrite leb_spec in Hle.
  pose proof (SFsub_not_nan (Prim2SF x) (Prim2SF y)) as Hnan.
  rewrite sub_spec in *. unfold SF64sub in *.
  destruct (Prim2SF x) as [sx|sx| |sx mx ex] eqn:Ex; auto.
  - destruct (Prim2SF y) as [sy|sy| |sy my ey]; try discriminate;
      specialize (Hnan eq_refl eq_refl); left;
      destruct (SFsub _ _ _ _) as [[]|[]| |[] m e]; try discriminate; reflexivity.
  - destruct (Prim2SF y) as [sy|sy| |sy my ey]; discriminate.
  - destruct (Prim2SF y) as [sy|sy| |sy my ey]; try discriminate;
      specialize (Hnan eq_refl eq_refl); left;
      destruct (SFsub _ _ _ _) as [[]|[]| |[] m e]; try discriminate; reflexivity.
Qed.

End Float64.

(** ** The cross-cycle samples *)

(** C6. For every current system CPU-seconds reading [total],
    [updateSystemSample] replaces the stored system sample with [total]
    (also on the first, uninitialized call); the delta it returns is never
    negative; the delta is marked valid exactly when a previous sample
    existed and the delta is not at most zero, and a valid delta is strictly
    positive (unless the reading is infinite, where the difference of two
    infinities is not a number); with a previous sample and
    [total >= previous] the delta is [total - previous] (the same value, or
    both are zero), and it is 0 in every other case. *)
Theorem updateSystemSample_spec (c : gpuProcessCollector) (total : float64) :
  let stored := systemSample c in
  let previous := totalSeconds stored in
  let r := updateSystemSample c total in
  let c' := fst (fst r) in
  let delta := snd (fst r) in
  let valid := snd r in
  c' = {| cpuSamples := cpuSamples c;
          systemSample := {| totalSeconds := total; initialized := true |} |}
  /\ (delta <? 0)%float = false
  /\ valid = initialized stored && negb (delta <=? 0)%float
  /\ (if valid then (0 <? delta)%float = true \/ is_infinity total = true
      else delta = 0%float)
  /\ (if initialized stored && (previous <=? total)%float
      then delta = (total - previous)%float
           \/ (delta = 0%float /\ (total - previous =? 0)%float = true)
      else delta = 0%float).
Proof.
  unfold updateSystemSample. destruct c as [samples [previous [|]]]; cbn.
  - destruct (previous <=? total)%float eqn:Hle; cbn.
    + destruct (total - previous <=? 0)%float eqn:Hd; cbn.
      * repeat split. right. split; [reflexivity|].
        now apply sub_eqb_zero.
      * rewrite Hd. repeat split.
        -- apply sub_not_neg. now apply leb_true_ltb_flip.
        -- now apply sub_positive.
        -- now left.
    + repeat split.
  - repeat split.
Qed.

(** C2. [processCPUPercent] replaces the pid's stored sample with the current
    cumulative CPU-seconds in every case. It returns 0 when the pid has no
    prior sample, when the system delta is invalid (not marked valid, or at
    most zero) or when the current CPU-seconds are at most the prior ones,
    which for a finite reading is the same as the per-process delta being at
    most zero; otherwise it returns
    [(processDelta / systemDelta) * numCPU * 100]. For a number of CPUs that
    is not negative the result is never negative. *)
Theorem processCPUPercent_spec (c : gpuProcessCollector) (pid : N)
    (procSeconds systemDelta : float64) (hasSystemDelta : bool) (numCPU : Z) :
  let r := processCPUPercent c pid procSeconds systemDelta hasSystemDelta numCPU in
  let c' := fst r in
  let percent := snd r in
  c' = {| cpuSamples := <[pid := {| cpuSeconds := procSeconds |}]> (cpuSamples c);
          systemSample := systemSample c |}
  /\ match cpuSamples c !! pid with
     | None => percent = 0%float
     | Some prev =>
       let processDelta := (procSeconds - cpuSeconds prev)%float in
       (is_finite procSeconds = true ->
        (processDelta <=? 0)%float = (procSeconds <=? cpuSeconds prev)%float)
       /\ if negb hasSystemDelta || (systemDelta <=? 0)%float
             || (procSeconds <=? cpuSeconds prev)%float
          then percent = 0%float
          else percent
               = (processDelta / systemDelta * float64_of_int numCPU * 100)%float
     end
  /\ (0 <= numCPU -> (percent <? 0)%float = false).
Proof.
  unfold processCPUPercent, map_index.
  destruct (cpuSamples c !! pid) as [[prev]|] eqn:Hprev; cbn.
  2: { repeat split. }
  destruct hasSystemDelta; cbn.
  2: { repeat split. apply sub_leb_zero. }
  destruct (systemDelta <=? 0)%float eqn:Hsys; cbn.
  { repeat split. apply sub_leb_zero. }
  destruct (procSeconds <=? prev)%float eqn:Hproc; cbn.
  { repeat split. intros Hfin. rewrite sub_leb_zero by assumption. exact Hproc. }
  repeat split.
  - intros Hfin. rewrite sub_leb_zero by assumption. exact Hproc.
  - intros Hn. repeat apply mul_not_neg.
    + apply div_not_neg; [|exact Hsys].
      apply sub_not_neg. now apply leb_false_ltb_false.
    + now apply float64_of_int_not_neg.
    + reflexivity.
Qed.

(** C2, at the samples of the specification: pid 42 went from 2.0 to 3.0
    CPU-seconds while the system advanced by 10.0 on 8 logical CPUs. *)
Lemma processCPUPercent_spec_witness :
  let c := example_collector in
  snd (processCPUPercent c 42 3 10 true 8) = 80%float
  /\ (snd (processCPUPercent c 42 3 10 true 8) <? 0)%float = false
  /\ ((3 - 2 <=? 0) = (3 <=? 2))%float.
Proof.
  intros c.
  destruct (processCPUPercent_spec c 42 3 10 true 8) as (_ & Hbranch & Hsign).
  split; [reflexivity|]. split.
  - apply Hsign. lia.
  - change (cpuSamples c !! 42%N) with (Some {| cpuSeconds := 2 |}) in Hbranch.
    destruct Hbranch as [Hdelta _]. apply Hdelta. reflexivity.
Defined.

Section Samples.

Implicit Types (samples : gmap N cpuSample) (pid : N) (active : list N).

Lemma elem_of_map_keys samples pid :
  pid ∈ map_keys samples <-> is_Some (samples !! pid).
Proof.
  unfold map_keys. rewrite list_elem_of_fmap. split.
  - intros [[k v] [-> Hin]]. apply elem_of_map_to_list in Hin. eauto.
  - intros [v Hv]. exists (pid, v). split; [reflexivity|].
    now apply elem_of_map_to_list.
Qed.

Lemma elem_of_activeSet active : forall (acc : gset N) pid,
  pid ∈ foldl (fun set pid => {[pid]} ∪ set) acc active
  <-> pid ∈ acc \/ pid ∈ active.
Proof.
  induction active as [|a active IH]; intros acc pid; cbn.
  - set_solver.
  - rewrite IH. set_solver.
Qed.

(** Deleting, among the visited keys, those outside [keep]. *)
Lemma lookup_foldl_delete (keep : gset N) (visited : list N) :
  forall samples pid,
  foldl (fun samples pid =>
           if bool_decide (pid ∈ keep) then samples else delete pid samples)
        samples visited !! pid
  = if bool_decide (pid ∈ visited /\ pid ∉ keep) then None else samples !! pid.
Proof.
  induction visited as [|a visited IH]; intros samples pid; cbn.
  - rewrite bool_decide_eq_false_2; [reflexivity | set_solver].
  - rewrite IH. case_bool_decide as Hlater.
    { rewrite bool_decide_eq_true_2 by set_solver. reflexivity. }
    case_bool_decide as Hkeep.
    + rewrite bool_decide_eq_false_2; [reflexivity|].
      intros [Hin Hout]. apply elem_of_cons in Hin as [->|Hin]; tauto.
    + destruct (decide (a = pid)) as [->|Hne].
      * rewrite lookup_delete_eq, bool_decide_eq_true_2; [reflexivity|].
        split; [left | assumption].
      * rewrite lookup_delete_ne by assumption.
        rewrite bool_decide_eq_false_2; [reflexivity|].
        intros [Hin Hout]. apply elem_of_cons in Hin as [->|Hin]; tauto.
Qed.

Lemma pruneCPUSamples_lookup c active pid :
  cpuSamples (pruneCPUSamples c active) !! pid
  = if bool_decide (pid ∈ active) then cpuSamples c !! pid else None.
Proof.
  unfold pruneCPUSamples.
  destruct (Nat.eqb_spec (size (cpuSamples c)) 0) as [Hsize|Hsize].
  - apply map_size_empty_iff in Hsize. rewrite Hsize, lookup_empty.
    now case_bool_decide.
  - cbn. rewrite lookup_foldl_delete.
    assert (Hact : forall q, q ∈ foldl (fun set pid => {[pid]} ∪ set) (∅ : gset N) active
                             <-> q ∈ active).
    { intros q. rewrite elem_of_activeSet. set_solver. }
    case_bool_decide as Hdel; case_bool_decide as Hin; try reflexivity.
    + destruct Hdel as [_ Hout]. rewrite Hact in Hout. contradiction.
    + destruct (cpuSamples c !! pid) eqn:Hpid; [|reflexivity].
      exfalso. apply Hdel. split; [|now rewrite Hact].
      apply elem_of_map_keys. eauto.
Qed.

Lemma pruneCPUSamples_systemSample c active :
  systemSample (pruneCPUSamples c active) = systemSample c.
Proof. unfold pruneCPUSamples. now destruct (_ =? _)%nat. Qed.

Lemma lookup_foldl_delete_all (visited : list N) : forall samples pid,
  foldl (fun samples pid => delete pid samples) samples visited !! pid
  = if bool_decide (pid ∈ visited) then None else samples !! pid.
Proof.
  induction visited as [|a visited IH]; intros samples pid; cbn.
  - rewrite bool_decide_eq_false_2; [reflexivity | set_solver].
  - rewrite IH. case_bool_decide as Hlater.
    { rewrite bool_decide_eq_true_2 by set_solver. reflexivity. }
    destruct (decide (a = pid)) as [->|Hne].
    + rewrite lookup_delete_eq, bool_decide_eq_true_2; [reflexivity | left].
    + rewrite lookup_delete_ne by assumption.
      rewrite bool_decide_eq_false_2; [reflexivity|].
      intros Hin. apply elem_of_cons in Hin as [->|Hin]; tauto.
Qed.

(** [resetCPUSamples] leaves the state of a new collector. *)
Lemma resetCPUSamples_eq c : resetCPUSamples c = NewGPUProcessCollector.
Proof.
  unfold resetCPUSamples, NewGPUProcessCollector. f_equal.
  apply map_eq. intros pid.
  rewrite lookup_empty, lookup_foldl_delete_all.
  case_bool_decide as Hin; [reflexivity|].
  destruct (cpuSamples c !! pid) eqn:Hpid; [|reflexivity].
  exfalso. apply Hin. apply elem_of_map_keys. eauto.
Qed.

End Samples.

(** ** One cycle of the process collector *)

Section Update.

Variable w : World.

Lemma processCPUPercent_state c pid procSeconds systemDelta hasSystemDelta numCPU :
  fst (processCPUPercent c pid procSeconds systemDelta hasSystemDelta numCPU)
  = {| cpuSamples := <[pid := {| cpuSeconds := procSeconds |}]> (cpuSamples c);
       systemSample := systemSample c |}.
Proof.
  unfold processCPUPercent. destruct (map_index _ _ _) as [prev ok].
  destruct (_ || _); [reflexivity|]. now destruct (_ <=? _)%float.
Qed.

Lemma updateSystemSample_cpuSamples c total :
  cpuSamples (fst (fst (updateSystemSample c total))) = cpuSamples c.
Proof.
  unfold updateSystemSample. destruct (negb _); [reflexivity|].
  now destruct (_ <=? 0)%float.
Qed.

(** One iteration of the loop stores a sample for its pid exactly when the
    lookups of that pid succeed. *)
Lemma updateProcess_samples hostname systemDelta hasSystemDelta numCPU c ch pid q :
  is_Some (cpuSamples
             (fst (updateProcess w hostname systemDelta hasSystemDelta numCPU
                                 (c, ch) pid)) !! q)
  <-> is_Some (cpuSamples c !! q) \/ (q = pid /\ sampled w pid = true).
Proof.
  unfold updateProcess, sampled.
  destruct (dcgm_GetProcessInfo w pid) as [[|info0 infos]|err];
    try (cbn; intuition congruence).
  destruct (collectProcessInfo w pid (info_Name info0))
    as [[[meta memPercent] procSeconds]|err];
    try (cbn; intuition congruence).
  pose proof (processCPUPercent_state c pid procSeconds systemDelta
                hasSystemDelta numCPU) as Hst.
  destruct (processCPUPercent _ _ _ _ _ _) as [c1 percent]. cbn in *. subst c1.
  cbn. rewrite lookup_insert. case_decide as Heq.
  - subst q. split; [intros _; right; split; reflexivity | eauto].
  - split; [tauto|]. intros [?|[? _]]; [assumption|congruence].
Qed.

Lemma updateProcess_systemSample hostname systemDelta hasSystemDelta numCPU c ch pid :
  systemSample (fst (updateProcess w hostname systemDelta hasSystemDelta numCPU
                                   (c, ch) pid))
  = systemSample c.
Proof.
  unfold updateProcess.
  destruct (dcgm_GetProcessInfo w pid) as [[|info0 infos]|err]; try reflexivity.
  destruct (collectProcessInfo w pid (info_Name info0))
    as [[[meta memPercent] procSeconds]|err]; try reflexivity.
  pose proof (processCPUPercent_state c pid procSeconds systemDelta
                hasSystemDelta numCPU) as Hst.
  destruct (processCPUPercent _ _ _ _ _ _) as [c1 percent]. cbn in *.
  now subst c1.
Qed.

Lemma foldl_updateProcess_samples hostname systemDelta hasSystemDelta numCPU pids :
  forall c ch q,
  is_Some (cpuSamples
             (fst (foldl (updateProcess w hostname systemDelta hasSystemDelta numCPU)
                         (c, ch) pids)) !! q)
  <-> is_Some (cpuSamples c !! q) \/ (q ∈ pids /\ sampled w q = true).
Proof.
  induction pids as [|pid pids IH]; intros c ch q; cbn [foldl].
  - cbn. split; [tauto|]. intros [?|[Hin _]]; [assumption|]. inversion Hin.
  - pose proof (updateProcess_samples hostname systemDelta hasSystemDelta numCPU
                  c ch pid q) as Hone.
    destruct (updateProcess _ _ _ _ _ (c, ch) pid) as [c1 ch1]. cbn in Hone.
    rewrite IH, Hone, elem_of_cons. clear. intuition (subst; auto).
Qed.

End Update.

Section UpdateCycle.

Variable w : World.

Lemma updateProcess_cpu_zero hostname systemDelta numCPU c ch pid :
  Forall cpu_zero ch ->
  Forall cpu_zero
    (snd (updateProcess w hostname systemDelta false numCPU (c, ch) pid)).
Proof.
  intros Hch. unfold updateProcess.
  destruct (dcgm_GetProcessInfo w pid) as [[|info0 infos]|err]; try exact Hch.
  destruct (collectProcessInfo w pid (info_Name info0))
    as [[[meta memPercent] procSeconds]|err]; try exact Hch.
  unfold processCPUPercent. destruct (map_index _ _ _) as [prev ok].
  replace (negb ok || negb false || (systemDelta <=? 0)%float) with true
    by (destruct ok; reflexivity).
  cbn [snd]. apply Forall_app. split; [exact Hch|].
  apply Forall_flat_map, Forall_forall. intros info _.
  unfold processSeries. repeat constructor; intros Hdesc; cbn in *;
    try discriminate; reflexivity.
Qed.

Lemma foldl_updateProcess_cpu_zero hostname systemDelta numCPU pids :
  forall c ch,
  Forall cpu_zero ch ->
  Forall cpu_zero
    (snd (foldl (updateProcess w hostname systemDelta false numCPU) (c, ch) pids)).
Proof.
  induction pids as [|pid pids IH]; intros c ch Hch; cbn [foldl]; [exact Hch|].
  pose proof (updateProcess_cpu_zero hostname systemDelta numCPU c ch pid Hch) as H1.
  destruct (updateProcess _ _ _ _ _ (c, ch) pid) as [c1 ch1]. now apply IH.
Qed.

(** From the state of a new (or reset) collector, every CPU series of the
    cycle reports 0. *)
Lemma Update_new_cpu_zero :
  Forall cpu_zero (snd (fst (Update w NewGPUProcessCollector))).
Proof.
  unfold Update.
  destruct (nvmlProcessPIDs w) as [pids|err].
  2: { destruct (errors_Is _ _); constructor. }
  destruct (length pids =? 0)%nat; [constructor|].
  destruct (readTotalCPUSeconds w) as [total|err]; [|constructor].
  cbn [updateSystemSample NewGPUProcessCollector systemSample initialized negb].
  destruct (dcgm_Init w); [constructor|].
  destruct (dcgm_WatchPidFields w); [constructor|].
  pose proof (foldl_updateProcess_cpu_zero (hostNameOrDefault w) 0%float (NumCPU w)
                pids
                {| cpuSamples := cpuSamples NewGPUProcessCollector;
                   systemSample := {| totalSeconds := total; initialized := true |} |}
                [] (Forall_nil_2 _)) as Hfold.
  destruct (foldl _ _ pids) as [c1 ch1]. exact Hfold.
Qed.

(** What holds of the three series of every process holds of everything a
    cycle sends. *)
Lemma updateProcess_series (P : Metric -> Prop) hostname systemDelta hasSystemDelta
    numCPU c ch pid :
  (forall meta cpuPercent memPercent info,
     Forall P (processSeries w hostname meta cpuPercent memPercent info)) ->
  Forall P ch ->
  Forall P (snd (updateProcess w hostname systemDelta hasSystemDelta numCPU (c, ch) pid)).
Proof.
  intros Hseries Hch. unfold updateProcess.
  destruct (dcgm_GetProcessInfo w pid) as [[|info0 infos]|err]; try exact Hch.
  destruct (collectProcessInfo w pid (info_Name info0))
    as [[[meta memPercent] procSeconds]|err]; try exact Hch.
  destruct (processCPUPercent _ _ _ _ _ _) as [c1 percent]. cbn [snd].
  apply Forall_app. split; [exact Hch|].
  apply Forall_flat_map, Forall_forall. intros info _. apply Hseries.
Qed.

Lemma Update_series (P : Metric -> Prop) c :
  (forall hostname meta cpuPercent memPercent info,
     Forall P (processSeries w hostname meta cpuPercent memPercent info)) ->
  Forall P (snd (fst (Update w c))).
Proof.
  intros Hseries. unfold Update.
  destruct (nvmlProcessPIDs w) as [pids|err].
  2: { destruct (errors_Is _ _); constructor. }
  destruct (length pids =? 0)%nat; [constructor|].
  destruct (readTotalCPUSeconds w) as [total|err]; [|constructor].
  destruct (updateSystemSample c total) as [[c1 systemDelta] hasSystemDelta].
  destruct (dcgm_Init w); [constructor|].
  destruct (dcgm_WatchPidFields w); [constructor|].
  assert (Hfold : forall pids c ch, Forall P ch ->
            Forall P (snd (foldl (updateProcess w (hostNameOrDefault w) systemDelta
                                                hasSystemDelta (NumCPU w))
                                 (c, ch) pids))).
  { clear pids. induction pids as [|pid pids IH]; intros c0 ch Hch; cbn [foldl];
      [exact Hch|].
    pose proof (updateProcess_series P (hostNameOrDefault w) systemDelta
                  hasSystemDelta (NumCPU w) c0 ch pid (Hseries _) Hch) as Hone.
    destruct (updateProcess _ _ _ _ _ (c0, ch) pid) as [c2 ch2]. now apply IH. }
  specialize (Hfold pids c1 [] (Forall_nil_2 _)).
  destruct (foldl _ _ pids) as [c2 ch]. exact Hfold.
Qed.

(** The process collector sends nothing under the descriptors of the
    orchestrator. *)
Lemma Update_sends_no_meta c :
  Forall (fun m => meta_desc m = false) (snd (fst (Update w c))).
Proof.
  apply Update_series. intros. unfold processSeries. repeat constructor.
Qed.

(** When enumeration ends in the distinguished unavailability error the
    cycle touches nothing. *)
Lemma Update_unavailable_error c err :
  nvmlProcessPIDs w = Err err ->
  errors_Is err errGPUProcessInfoUnavailable = true ->
  Update w c = (c, [], None).
Proof. intros Hpids His. unfold Update. now rewrite Hpids, His. Qed.

Lemma wrapNVMLAvailabilityError_unavailable op ret :
  unavailable_code ret = true ->
  errors_Is (wrapNVMLAvailabilityError op ret) errGPUProcessInfoUnavailable = true.
Proof. destruct ret; cbn; congruence. Qed.

Lemma nvmlProcessPIDs_unavailable :
  unavailable_code (nvml_Init w) = true
  \/ (nvml_Init w = SUCCESS /\ unavailable_code (nvml_DeviceGetCount w) = true) ->
  exists err, nvmlProcessPIDs w = Err err
              /\ errors_Is err errGPUProcessInfoUnavailable = true.
Proof.
  unfold nvmlProcessPIDs. intros [Hinit|[Hinit Hcount]].
  - exists (wrapNVMLAvailabilityError "nvml init" (nvml_Init w)).
    split; [|now apply wrapNVMLAvailabilityError_unavailable].
    destruct (nvml_Init w); try discriminate; reflexivity.
  - rewrite Hinit.
    exists (wrapNVMLAvailabilityError "nvml device count" (nvml_DeviceGetCount w)).
    split; [|now apply wrapNVMLAvailabilityError_unavailable].
    destruct (nvml_DeviceGetCount w); try discriminate; reflexivity.
Qed.

Lemma nvmlDeviceLoop_unavailable devices :
  forallb device_unavailable devices = true ->
  forall i pidSet, nvmlDeviceLoop devices i pidSet = Ok pidSet.
Proof.
  induction devices as [|device devices IH]; cbn; intros Hall i pidSet;
    [reflexivity|].
  apply andb_prop in Hall as [Hdev Hall]. unfold device_unavailable in Hdev.
  destruct (handleRet device); try discriminate.
  apply andb_prop in Hdev as [Hcompute Hgraphics].
  destruct (computeRunningProcesses device) as [procs1 ret1].
  destruct (graphicsRunningProcesses device) as [procs2 ret2]. cbn in *.
  destruct ret1; try discriminate; destruct ret2; try discriminate;
    cbn; now apply IH.
Qed.

(** In each of the three cases nothing is sent and nil is returned. *)
Lemma Update_enumeration_unavailable c :
  enumeration_unavailable w = true ->
  snd (fst (Update w c)) = [] /\ snd (Update w c) = None.
Proof.
  unfold enumeration_unavailable. intros Hcase.
  apply orb_prop in Hcase as [Hcase|Hcase];
    [apply orb_prop in Hcase as [Hcase|Hcase]|].
  - destruct (nvmlProcessPIDs_unavailable (or_introl Hcase)) as (err & Hpids & His).
    now rewrite (Update_unavailable_error c err Hpids His).
  - apply andb_prop in Hcase as [Hinit Hcount].
    assert (Hinit' : nvml_Init w = SUCCESS)
      by (destruct (nvml_Init w); try discriminate; reflexivity).
    destruct (nvmlProcessPIDs_unavailable (or_intror (conj Hinit' Hcount)))
      as (err & Hpids & His).
    now rewrite (Update_unavailable_error c err Hpids His).
  - apply andb_prop in Hcase as [Hcase Hdevices].
    apply andb_prop in Hcase as [Hinit Hcount].
    unfold Update, nvmlProcessPIDs.
    destruct (nvml_Init w); try discriminate.
    destruct (nvml_DeviceGetCount w); try discriminate.
    rewrite (nvmlDeviceLoop_unavailable _ Hdevices). cbn. split; reflexivity.
Qed.

End UpdateCycle.

(** A gap of any number of cycles that end in the unavailability error
    leaves the collector as it was. *)
Lemma cycles_unavailable_gap (gap : list World) (c : gpuProcessCollector) :
  Forall (fun w => exists err, nvmlProcessPIDs w = Err err
                               /\ errors_Is err errGPUProcessInfoUnavailable = true)
         gap ->
  cycles gap c = c.
Proof.
  unfold cycles. induction 1 as [|w gap (err & Hpids & His) _ IH]; cbn;
    [reflexivity|].
  now rewrite (Update_unavailable_error w c err Hpids His).
Qed.

(** ** The cycle of the process collector and the specification *)

(** C10. When GPU process listing fails with the distinguished unavailability
    error, [Update] returns nil, sends nothing and leaves the collector as it
    was: the per-pid samples and the system sample recorded before the gap
    persist across it. *)
Theorem Update_unavailable_frame (w : World) (c : gpuProcessCollector) (err : error) :
  nvmlProcessPIDs w = Err err ->
  errors_Is err errGPUProcessInfoUnavailable = true ->
  Update w c = (c, [], None).
Proof. apply Update_unavailable_error. Qed.

(** C10, when [nvml.Init] answers "not supported" to a collector that holds
    samples. *)
Lemma Update_unavailable_frame_witness :
  Update (example_world ERROR_NOT_SUPPORTED [42%N] example_info 110 "python train.py" 3)
         example_collector
  = (example_collector, [], None).
Proof.
  apply (Update_unavailable_frame _ _ (nvmlUnavailablef "nvml init" ERROR_NOT_SUPPORTED));
    reflexivity.
Defined.

(** C1, as stated, fails: [nvml.Init] answers "not supported",
    [Update] returns nil and sends no process series, and [execute] then
    reports success = 1 for the collector, not 0. *)
Lemma Update_unavailable_reports_success :
  let w := example_world ERROR_NOT_SUPPORTED [42%N] example_info 110 "python train.py" 3 in
  Update w example_collector = (example_collector, [], None)
  /\ snd (execute w "gpu_process" (gpu_process example_collector))
     = [gauge scrapeDurationDesc 0.25 ["gpu_process"];
        gauge scrapeSuccessDesc 1 ["gpu_process"]].
Proof. split; reflexivity. Qed.

(** C1, amended. When GPU process enumeration reports the capability as
    unavailable ([nvml.Init] or [nvml.DeviceGetCount] answers uninitialized,
    library not found, driver not loaded, not supported, no permission or
    unknown, or the process queries of every device answer not supported, no
    permission or not found), [Update] sends no per-process series and
    returns nil, so that no error reaches the scrape caller, and the scrape
    reports success = 1 for that collector: [execute] sends exactly the
    duration gauge and a success gauge of 1. *)
Theorem Update_unavailable_scrape (w : World) (c : gpuProcessCollector) (name : string) :
  enumeration_unavailable w = true ->
  snd (fst (Update w c)) = []
  /\ snd (Update w c) = None
  /\ snd (execute w name (gpu_process c))
     = [gauge scrapeDurationDesc (elapsed_seconds w name) [name];
        gauge scrapeSuccessDesc 1 [name]].
Proof.
  intros Hcase.
  destruct (Update_enumeration_unavailable w c Hcase) as [Hsent Herr].
  repeat split; try assumption.
  unfold execute, call_Update. cbn.
  destruct (Update w c) as [[c' ch] err]. cbn in *. now subst.
Qed.

(** C1 amended, on a GPU whose driver gives no permission to list compute
    processes and does not support listing graphics processes. *)
Lemma Update_unavailable_scrape_witness :
  let w := {| os_Hostname := Ok "gpu-node-1"; env_NODE_NAME := ""; NumCPU := 8;
              elapsed_seconds := fun _ => 0.25%float;
              nvml_Init := SUCCESS; nvml_DeviceGetCount := SUCCESS;
              nvml_devices :=
                [{| handleRet := SUCCESS;
                    computeRunningProcesses := ([], ERROR_NO_PERMISSION);
                    graphicsRunningProcesses := ([], ERROR_NOT_SUPPORTED) |}];
              dcgm_Init := None; dcgm_WatchPidFields := None;
              dcgm_GetProcessInfo := example_info;
              dcgm_IsInt64Blank := fun _ => false;
              cpu_Times := Ok [example_times 0 0 110];
              process_NewProcess := fun _ => Ok (example_process "python" 3) |} in
  snd (fst (Update w example_collector)) = []
  /\ snd (Update w example_collector) = None
  /\ snd (execute w "gpu_process" (gpu_process example_collector))
     = [gauge scrapeDurationDesc 0.25 ["gpu_process"];
        gauge scrapeSuccessDesc 1 ["gpu_process"]].
Proof.
  intros w. apply (Update_unavailable_scrape w example_collector "gpu_process").
  reflexivity.
Defined.

(** C5. If enumeration succeeds and reports no active GPU process, [Update]
    returns nil, sends nothing and clears the cross-cycle state: the per-pid
    sample map is empty and the system sample is uninitialized. In a cycle
    that starts from that state every CPU series reports 0, whatever the
    world of that cycle is: a process that reappears is not measured against
    a sample from before the gap. *)
Theorem Update_no_processes (w : World) (c : gpuProcessCollector) :
  nvmlProcessPIDs w = Ok [] ->
  let c' := fst (fst (Update w c)) in
  Update w c = (c', [], None)
  /\ cpuSamples c' = ∅
  /\ systemSample c' = {| totalSeconds := 0; initialized := false |}
  /\ forall w', Forall cpu_zero (snd (fst (Update w' c'))).
Proof.
  intros Hpids c'.
  assert (Hupd : Update w c = (NewGPUProcessCollector, [], None)).
  { unfold Update. rewrite Hpids. cbn. now rewrite resetCPUSamples_eq. }
  subst c'. rewrite Hupd. cbn. repeat split.
  intros w'. apply Update_new_cpu_zero.
Qed.

(** C5, on a GPU without processes: the samples of the example collector are
    dropped, and when process 42 is back in the next cycle, with 3.0
    CPU-seconds against a system total of 110.0, its CPU series is 0. *)
Lemma Update_no_processes_witness :
  let quiet := example_world SUCCESS [] example_info 105 "python train.py" 2 in
  let busy := example_world SUCCESS [42%N] example_info 110 "python train.py" 3 in
  let c' := fst (fst (Update quiet example_collector)) in
  cpuSamples c' = ∅
  /\ Forall cpu_zero (snd (fst (Update busy c')))
  /\ map metric_value (snd (fst (Update busy c'))) = [1024; 0; 1.5]%float.
Proof.
  intros quiet busy c'.
  destruct (Update_no_processes quiet example_collector eq_refl)
    as (_ & Hsamples & _ & Hzero).
  split; [exact Hsamples|]. split; [apply Hzero | reflexivity].
Defined.

(** C4, as stated, fails: process 42 is active on the device,
    DCGM has no data for it, the cycle completes, and no sample is stored
    for 42. *)
Lemma Update_active_pid_without_sample :
  let w := example_world SUCCESS [42%N] (fun _ => Err (dcgmError (-14)))
                         110 "python train.py" 3 in
  nvmlProcessPIDs w = Ok [42%N]
  /\ snd (Update w NewGPUProcessCollector) = None
  /\ cpuSamples (fst (fst (Update w NewGPUProcessCollector))) !! 42%N = None.
Proof. repeat split; reflexivity. Qed.

(** C4, amended. After every cycle of [Update] that completes (enumeration
    succeeded and nil is returned), a pid has a stored sample exactly when
    it is in the active set of the cycle and either its lookups succeeded in
    this cycle or it already had a sample: no pid absent from the active set
    remains, and every active pid whose lookups succeeded has a sample. *)
Theorem Update_sample_keys (w : World) (c : gpuProcessCollector) (pids : list N) :
  nvmlProcessPIDs w = Ok pids ->
  snd (Update w c) = None ->
  forall pid,
  is_Some (cpuSamples (fst (fst (Update w c))) !! pid)
  <-> pid ∈ pids /\ (is_Some (cpuSamples c !! pid) \/ sampled w pid = true).
Proof.
  intros Hpids. unfold Update. rewrite Hpids.
  destruct (Nat.eqb_spec (length pids) 0) as [Hlen|Hlen].
  { intros _ pid. cbn [fst snd]. rewrite resetCPUSamples_eq. cbn.
    rewrite lookup_empty.
    destruct pids; [|discriminate]. split.
    - intros [? ?]. discriminate.
    - intros [Hin _]. inversion Hin. }
  destruct (readTotalCPUSeconds w) as [total|err]; [|discriminate].
  pose proof (updateSystemSample_cpuSamples c total) as Hsys.
  destruct (updateSystemSample c total) as [[c1 systemDelta] hasSystemDelta].
  cbn in Hsys.
  destruct (dcgm_Init w); [discriminate|].
  destruct (dcgm_WatchPidFields w); [discriminate|].
  intros _ pid.
  pose proof (foldl_updateProcess_samples w (hostNameOrDefault w) systemDelta
                hasSystemDelta (NumCPU w) pids c1 [] pid) as Hfold.
  destruct (foldl _ _ pids) as [c2 ch]. cbn in *.
  rewrite pruneCPUSamples_lookup. rewrite Hsys in Hfold.
  case_bool_decide as Hin.
  - rewrite Hfold. tauto.
  - split; [intros [? ?]; discriminate | tauto].
Qed.

(** C4 amended, in the cycle in which process 42 is sampled while the stale
    sample of the process 7 that left the GPU is pruned. *)
Lemma Update_sample_keys_witness :
  let w := example_world SUCCESS [42%N] example_info 110 "python train.py" 3 in
  let c := {| cpuSamples := {[ 7%N := {| cpuSeconds := 1 |} ]};
              systemSample := {| totalSeconds := 100; initialized := true |} |} in
  is_Some (cpuSamples (fst (fst (Update w c))) !! 42%N)
  /\ ~ is_Some (cpuSamples (fst (fst (Update w c))) !! 7%N).
Proof.
  intros w c.
  pose proof (Update_sample_keys w c [42%N] eq_refl eq_refl) as Hkeys.
  split.
  - apply Hkeys. split; [left | right; reflexivity].
  - intros Hsome. apply Hkeys in Hsome as [Hin _].
    apply elem_of_cons in Hin as [Heq|Hin]; [discriminate | inversion Hin].
Defined.

(** ** The orchestrator *)

Section Orchestrator.

Variable w : World.

Lemma filter_Permutation (f : Metric -> bool) (l l' : list Metric) :
  l ≡ₚ l' -> List.filter f l ≡ₚ List.filter f l'.
Proof.
  induction 1 as [|m l l' _ IH|m m' l|l l' l'' _ IH1 _ IH2]; cbn.
  - constructor.
  - destruct (f m); [now constructor | assumption].
  - destruct (f m), (f m'); try reflexivity. constructor.
  - now transitivity (List.filter f l').
Qed.

Lemma filter_none (f : Metric -> bool) (l : list Metric) :
  Forall (fun m => f m = false) l -> List.filter f l = [].
Proof.
  induction 1 as [|m l Hm _ IH]; cbn; [reflexivity|]. now rewrite Hm.
Qed.

(** Whatever the schedule, the channel carries the sends of all goroutines. *)
Lemma interleaves_Permutation seqs out :
  interleaves seqs out -> out ≡ₚ concat seqs.
Proof.
  induction 1 as [seqs Hnil|before m s after out _ IH].
  - induction Hnil as [|s seqs -> _ IH]; [reflexivity | exact IH].
  - rewrite concat_app in *. cbn in *.
    rewrite IH. apply Permutation_middle.
Qed.

Lemma interleaves_idle seqs out :
  interleaves seqs out -> interleaves ([] :: seqs) out.
Proof.
  induction 1 as [seqs Hnil|before m s after out _ IH].
  - constructor. now constructor.
  - exact (interleaves_send ([] :: before) m s after out IH).
Qed.

(** Running the goroutines one after the other is one of the schedules. *)
Lemma interleaves_concat seqs : interleaves seqs (concat seqs).
Proof.
  induction seqs as [|s seqs IH]; cbn.
  - constructor. constructor.
  - induction s as [|m s IHs]; cbn.
    + now apply interleaves_idle.
    + exact (interleaves_send [] m s seqs _ IHs).
Qed.

Lemma Collect_sequential_possible n : Collect w n (Collect_sequential w n).
Proof. apply interleaves_concat. Qed.

(** Behind the interface, the process collector runs its [Update]. *)
Lemma call_Update_gpu_process c :
  call_Update w (gpu_process c)
  = (gpu_process (fst (fst (Update w c))), snd (fst (Update w c)), snd (Update w c)).
Proof.
  unfold call_Update, gpu_process. cbn.
  now destruct (Update w c) as [[c' ch] err].
Qed.

(** [execute] sends what [Update] sent, then the two meta-metrics. *)
Lemma execute_sends name c :
  snd (execute w name c)
  = snd (fst (call_Update w c))
    ++ [gauge scrapeDurationDesc (elapsed_seconds w name) [name];
        gauge scrapeSuccessDesc (success_value (snd (call_Update w c))) [name]].
Proof.
  unfold execute. destruct (call_Update w c) as [[c' ch] [err|]]; cbn.
  - now destruct (IsNoDataError err).
  - reflexivity.
Qed.

Lemma not_meta_desc desc name m :
  desc = scrapeDurationDesc \/ desc = scrapeSuccessDesc ->
  meta_desc m = false -> is_meta desc name m = false.
Proof.
  unfold meta_desc, is_meta. intros [->| ->] H;
    apply orb_false_elim in H as [H1 H2]; now rewrite ?H1, ?H2.
Qed.

Lemma is_meta_own desc value name name' :
  is_meta desc name (gauge desc value [name']) = bool_decide (name' = name).
Proof.
  unfold is_meta. cbn.
  replace (Desc_eqb desc desc) with true.
  - cbn. apply bool_decide_ext. split; congruence.
  - destruct desc; cbn; try reflexivity. symmetry. apply String.eqb_refl.
Qed.

(** Of the sends of the goroutine of [name'], only its own meta-metric is
    a meta-metric for [name], when [name' = name]. *)
Lemma filter_execute_duration name name' c :
  Forall (fun m => meta_desc m = false) (snd (fst (call_Update w c))) ->
  List.filter (is_meta scrapeDurationDesc name) (snd (execute w name' c))
  = if bool_decide (name' = name)
    then [gauge scrapeDurationDesc (elapsed_seconds w name') [name']]
    else [].
Proof.
  intros Hown. rewrite execute_sends, List.filter_app, filter_none.
  2: { eapply Forall_impl; [exact Hown|]. intros m. apply not_meta_desc. now left. }
  cbn [List.filter app]. rewrite is_meta_own.
  now destruct (bool_decide (name' = name)).
Qed.

Lemma filter_execute_success name name' c :
  Forall (fun m => meta_desc m = false) (snd (fst (call_Update w c))) ->
  List.filter (is_meta scrapeSuccessDesc name) (snd (execute w name' c))
  = if bool_decide (name' = name)
    then [gauge scrapeSuccessDesc (success_value (snd (call_Update w c))) [name']]
    else [].
Proof.
  intros Hown. rewrite execute_sends, List.filter_app, filter_none.
  2: { eapply Forall_impl; [exact Hown|]. intros m. apply not_meta_desc. now right. }
  cbn [List.filter app]. rewrite is_meta_own.
  now destruct (bool_decide (name' = name)).
Qed.

(** Among entries with distinct keys, one key selects one entry. *)
Lemma concat_select {A : Type} (g : string -> Collector -> list A)
    (entries : list (string * Collector)) name c :
  NoDup entries.*1 -> (name, c) ∈ entries ->
  concat (map (fun '(name', c') =>
                 if bool_decide (name' = name) then g name' c' else [])
              entries)
  = g name c.
Proof.
  induction entries as [|[name' c'] entries IH]; cbn; intros Hnodup Hin.
  - inversion Hin.
  - apply NoDup_cons in Hnodup as [Hfresh Hnodup].
    apply elem_of_cons in Hin as [Heq|Hin].
    + inversion Heq; subst name' c'.
      rewrite bool_decide_eq_true_2 by reflexivity.
      assert (Hrest : concat (map (fun '(name', c') =>
                 if bool_decide (name' = name) then g name' c' else [])
              entries) = []).
      { clear IH Hnodup. induction entries as [|[k v] entries IH]; cbn;
          [reflexivity|].
        rewrite bool_decide_eq_false_2.
        - apply IH. intros Hin. apply Hfresh. now right.
        - intros ->. apply Hfresh. now left. }
      rewrite Hrest. apply app_nil_r.
    + rewrite bool_decide_eq_false_2.
      * now apply IH.
      * intros ->. apply Hfresh. apply list_elem_of_fmap. now exists (name, c).
Qed.

End Orchestrator.

(** C3. For every set of registered collectors, none of which sends metrics
    under the two descriptors of the orchestrator, and every outcome of each
    collector's [Update], whatever the interleaving of the goroutines,
    [Collect] sends for each collector exactly one duration-seconds gauge and
    exactly one success gauge (1 when [Update] returned nil, 0 on any error,
    the no-data error included), and everything each collector's [Update]
    sent: no collector's error suppresses the metrics of another one or the
    meta-metrics. *)
Theorem Collect_meta_metrics (w : World) (n : Collectors) (out : list Metric) :
  Collect w n out ->
  (forall name c, n !! name = Some c ->
     Forall (fun m => meta_desc m = false) (snd (fst (call_Update w c)))) ->
  forall name c, n !! name = Some c ->
    List.filter (is_meta scrapeDurationDesc name) out
    = [gauge scrapeDurationDesc (elapsed_seconds w name) [name]]
    /\ List.filter (is_meta scrapeSuccessDesc name) out
       = [gauge scrapeSuccessDesc (success_value (snd (call_Update w c))) [name]]
    /\ forall m, m ∈ snd (fst (call_Update w c)) -> m ∈ out.
Proof.
  intros Hout Hown name c Hc.
  apply interleaves_Permutation in Hout. unfold Collect_goroutines in Hout.
  assert (Hin : (name, c) ∈ map_to_list n) by now apply elem_of_map_to_list.
  pose proof (NoDup_fst_map_to_list n) as Hnodup.
  assert (Hsends : forall (f : Metric -> bool) (g : string -> Collector -> list Metric),
             (forall name' c', n !! name' = Some c' ->
                List.filter f (snd (execute w name' c'))
                = if bool_decide (name' = name) then g name' c' else []) ->
             List.filter f out ≡ₚ g name c).
  { intros f g Hf.
    etransitivity; [apply filter_Permutation; exact Hout|].
    rewrite <- concat_filter_map, map_map.
    rewrite (map_ext_in _ (fun '(name', c') =>
                             if bool_decide (name' = name) then g name' c' else [])).
    - now rewrite (concat_select g (map_to_list n) name c Hnodup Hin).
    - intros [name' c'] Hin'. apply Hf.
      apply elem_of_map_to_list. now apply list_elem_of_In. }
  repeat split.
  - apply Permutation_singleton_r.
    apply (Hsends _ (fun name' _ =>
                       [gauge scrapeDurationDesc (elapsed_seconds w name') [name']])).
    intros name' c' Hc'. apply filter_execute_duration. eauto.
  - apply Permutation_singleton_r.
    apply (Hsends _ (fun name' c' =>
                       [gauge scrapeSuccessDesc
                              (success_value (snd (call_Update w c'))) [name']])).
    intros name' c' Hc'. apply filter_execute_success. eauto.
  - intros m Hm. rewrite Hout. apply list_elem_of_In, in_concat.
    exists (snd (execute w name c)). split.
    + apply in_map_iff. exists (name, c). split; [reflexivity|].
      now apply list_elem_of_In.
    + rewrite execute_sends. apply in_or_app. left. now apply list_elem_of_In.
Qed.

(** C3, with the process collector next to a collector that fails: under the
    sequential schedule each of them has its success gauge, 1 and 0, and the
    three series of process 42 are sent. *)
Lemma Collect_meta_metrics_witness :
  let w := example_world SUCCESS [42%N] example_info 110 "python train.py" 3 in
  let n : Collectors :=
    <["gpu_process" := gpu_process example_collector]>
      (<["broken" := failing_collector (errorNew "driver crashed")]> ∅) in
  let out := Collect_sequential w n in
  List.filter (is_meta scrapeSuccessDesc "gpu_process") out
  = [gauge scrapeSuccessDesc 1 ["gpu_process"]]
  /\ List.filter (is_meta scrapeSuccessDesc "broken") out
     = [gauge scrapeSuccessDesc 0 ["broken"]]
  /\ List.filter (is_meta scrapeDurationDesc "broken") out
     = [gauge scrapeDurationDesc 0.25 ["broken"]]
  /\ length out = 7%nat.
Proof.
  intros w n out.
  assert (Hown : forall name c, n !! name = Some c ->
            Forall (fun m => meta_desc m = false) (snd (fst (call_Update w c)))).
  { apply map_Forall_insert_2; [|apply map_Forall_insert_2; [|apply map_Forall_empty]].
    - rewrite call_Update_gpu_process. apply Update_sends_no_meta.
    - constructor. }
  pose proof (Collect_meta_metrics w n out (Collect_sequential_possible w n) Hown)
    as Hmeta.
  destruct (Hmeta "gpu_process" (gpu_process example_collector) eq_refl)
    as (_ & Hsuccess & _).
  destruct (Hmeta "broken" (failing_collector (errorNew "driver crashed")) eq_refl)
    as (Hduration & Hfailure & _).
  split; [exact Hsuccess|]. split; [exact Hfailure|].
  split; [exact Hduration | reflexivity].
Defined.

(** ** Labels *)

(** C7. The code departs from the specification on a command line of 100
    euro signs: 100 code points, 300 bytes. The label is cut although the
    command line has fewer than 200 code points, and it is cut after 200
    bytes, in the middle of the 67th character: the label ends in two bytes
    that decode to [RuneError]. (A command line of 201 euro signs or of 201
    letters is cut to its first 200 code points, as specified.) *)
Theorem collectProcessInfo_splits_rune :
  let source := Repeat "€" 100 in
  let w := example_world SUCCESS [42%N] example_info 110 source 3 in
  length (runes source) = 100%nat
  /\ len source = 300%nat
  /\ match collectProcessInfo w 42 "python" with
     | Ok (meta, _, _) =>
       command meta = byte_prefix 200 source
       /\ String.eqb (command meta) source = false
       /\ len (command meta) = 200%nat
       /\ runes (command meta) = repeat 8364%N 66 ++ [RuneError; RuneError]
     | Err _ => False
     end
  /\ truncateCommand (Repeat "€" 201) = Repeat "€" 200
  /\ truncateCommand (Repeat "a" 201) = Repeat "a" 200.
Proof. vm_compute. repeat split. Qed.

(** C8. The code departs from the specification when [os.Hostname] fails:
    NODE_NAME is set to [node-1], and the host identifier is [unknown]. *)
Theorem hostNameOrDefault_ignores_override :
  hostNameOrDefault (example_host (Err (hostError "hostname: not available")) "node-1")
  = "unknown"
  /\ hostNameOrDefault (example_host (Ok "pod-7f9c") "node-1") = "node-1"
  /\ hostNameOrDefault (example_host (Ok "pod-7f9c") "") = "pod-7f9c".
Proof. repeat split. Qed.

(** ** Two concurrent scrapes *)

(** Run alone, the accesses of [updateSystemSample_steps] are
    [updateSystemSample]. *)
Lemma updateSystemSample_steps_alone (c : gpuProcessCollector) (total : float64) :
  let r := updateSystemSample c total in
  run (updateSystemSample_steps total) (systemSample c)
  = ((snd (fst r), snd r), systemSample (fst (fst r))).
Proof.
  unfold updateSystemSample. destruct c as [samples [previous [|]]]; cbn.
  - now destruct (_ <=? 0)%float.
  - reflexivity.
Qed.

(** C9. The code departs from the specification: nothing serializes two
    calls of [Update] on one collector. The stored system sample is 100.0;
    one scrape reads 110.0 and the other 111.0. One after the other, in
    either order, the deltas are 10 and 1, or 11 and none. When both read the
    stored sample before either writes, the deltas are 10 and 11: the second
    scrape measures against a sample the first one has already replaced. *)
Theorem concurrent_updateSystemSample_lost_update :
  let stored := {| totalSeconds := 100; initialized := true |} in
  let p := updateSystemSample_steps 110 in
  let q := updateSystemSample_steps 111 in
  run2 [true; true; false; false] p q stored
  = (ret (10%float, true), ret (1%float, true),
     {| totalSeconds := 111; initialized := true |})
  /\ run2 [false; false; true; true] p q stored
     = (ret (0%float, false), ret (11%float, true),
        {| totalSeconds := 110; initialized := true |})
  /\ run2 [true; false; true; false] p q stored
     = (ret (10%float, true), ret (11%float, true),
        {| totalSeconds := 111; initialized := true |}).
Proof. repeat split. Qed.

(** * Further properties of the code *)

(** ** Enumeration of the GPU processes *)

Section Enumeration.

Lemma elem_of_foldl_pids (processes : list nvmlProcessInfo) :
  forall (pidSet : gset N) (pid : N),
  pid ∈ foldl (fun set info => if (Pid info =? 0)%N then set else {[Pid info]} ∪ set)
              pidSet processes
  <-> pid ∈ pidSet
      \/ pid ∈ List.filter (fun pid => negb (pid =? 0)%N) (map Pid processes).
Proof.
  induction processes as [|info processes IH]; intros pidSet pid; cbn.
  - split; [tauto|]. intros [?|Hin]; [assumption | inversion Hin].
  - rewrite IH. destruct (N.eqb_spec (Pid info) 0) as [Hzero|Hnz]; cbn.
    + reflexivity.
    + rewrite elem_of_cons. set_solver.
Qed.

Lemma addNVMLProcessInfo_Ok pidSet getter typ gpuIndex pidSet' :
  addNVMLProcessInfo pidSet getter typ gpuIndex = Ok pidSet' ->
  query_fault (snd getter) = false
  /\ forall pid, pid ∈ pidSet' <-> pid ∈ pidSet \/ pid ∈ reported_pids getter.
Proof.
  unfold addNVMLProcessInfo, reported_pids. destruct getter as [processes ret].
  destruct ret; cbn; intros Heq; inversion Heq; subst; split; try reflexivity;
    intros pid; rewrite ?elem_of_foldl_pids; try tauto;
    (split; [tauto|]; intros [?|Hin]; [assumption | inversion Hin]).
Qed.

Lemma addNVMLProcessInfo_Err pidSet getter typ gpuIndex err :
  addNVMLProcessInfo pidSet getter typ gpuIndex = Err err ->
  query_fault (snd getter) = true
  /\ errors_Is err errGPUProcessInfoUnavailable = false.
Proof.
  unfold addNVMLProcessInfo. destruct getter as [processes ret].
  destruct ret; cbn; intros Heq; inversion Heq; subst; split; reflexivity.
Qed.

Lemma nvmlDeviceLoop_Ok devices : forall i pidSet pidSet',
  nvmlDeviceLoop devices i pidSet = Ok pidSet' ->
  existsb device_fault devices = false
  /\ forall pid, pid ∈ pidSet'
       <-> pid ∈ pidSet \/ exists device, device ∈ devices /\ pid ∈ device_pids device.
Proof.
  induction devices as [|device devices IH]; cbn; intros i pidSet pidSet' Hloop.
  - inversion Hloop; subst. split; [reflexivity|]. intros pid.
    split; [tauto|]. intros [?|(d & Hin & _)]; [assumption | inversion Hin].
  - unfold device_fault at 1.
    destruct (handleRet device); try discriminate.
    destruct (addNVMLProcessInfo pidSet _ _ _) as [set1|] eqn:Hcompute;
      [|discriminate].
    destruct (addNVMLProcessInfo set1 _ _ _) as [set2|] eqn:Hgraphics;
      [|discriminate].
    apply addNVMLProcessInfo_Ok in Hcompute as [Hq1 Hset1].
    apply addNVMLProcessInfo_Ok in Hgraphics as [Hq2 Hset2].
    apply IH in Hloop as [Hrest Hset']. rewrite Hq1, Hq2, Hrest.
    split; [reflexivity|]. intros pid.
    rewrite Hset', Hset2, Hset1. unfold device_pids. split.
    + intros [[[?|Hin]|Hin]|(d & Hd & Hin)]; auto.
      * right. exists device. split; [left|]. apply elem_of_app. now left.
      * right. exists device. split; [left|]. apply elem_of_app. now right.
      * right. exists d. split; [now right | assumption].
    + intros [?|(d & Hd & Hin)]; auto.
      apply elem_of_cons in Hd as [->|Hd].
      * apply elem_of_app in Hin as [Hin|Hin]; auto.
      * right. now exists d.
Qed.

Lemma nvmlDeviceLoop_Err devices : forall i pidSet err,
  nvmlDeviceLoop devices i pidSet = Err err ->
  existsb device_fault devices = true
  /\ errors_Is err errGPUProcessInfoUnavailable = false.
Proof.
  induction devices as [|device devices IH]; cbn; intros i pidSet err Hloop;
    [discriminate|].
  unfold device_fault at 1.
  destruct (handleRet device);
    try (inversion Hloop; subst; split; reflexivity).
  destruct (addNVMLProcessInfo pidSet _ _ _) as [set1|err1] eqn:Hcompute.
  2: { inversion Hloop; subst.
       apply addNVMLProcessInfo_Err in Hcompute as [-> ?]. now split. }
  destruct (addNVMLProcessInfo set1 _ _ _) as [set2|err2] eqn:Hgraphics.
  2: { inversion Hloop; subst.
       apply addNVMLProcessInfo_Err in Hgraphics as [-> ?].
       split; [|assumption]. cbn. now rewrite orb_true_r. }
  apply IH in Hloop as [-> ?]. split; [|assumption]. now rewrite orb_true_r.
Qed.

Lemma StronglySorted_le_lt (l : list N) :
  StronglySorted N.le l -> NoDup l -> StronglySorted N.lt l.
Proof.
  induction 1 as [|x l Hsorted IH Hall]; intros Hnodup; constructor.
  - apply IH. now apply NoDup_cons in Hnodup as [_ ?].
  - apply NoDup_cons in Hnodup as [Hfresh _].
    apply Forall_forall. intros y Hy.
    assert (x <> y) by (intros ->; apply Hfresh; now apply list_elem_of_In).
    rewrite Forall_forall in Hall. specialize (Hall y Hy). lia.
Qed.

Lemma nvmlProcessPIDs_NoDup w pids :
  nvmlProcessPIDs w = Ok pids -> NoDup pids.
Proof.
  unfold nvmlProcessPIDs.
  destruct (nvml_Init w); try discriminate.
  destruct (nvml_DeviceGetCount w); try discriminate.
  destruct (nvmlDeviceLoop _ _ _) as [pidSet|]; [|discriminate].
  intros Heq; inversion Heq; subst.
  rewrite merge_sort_Permutation. apply NoDup_elements.
Qed.

End Enumeration.

(** X1. When [nvmlProcessPIDs] succeeds, the pids it returns are in strictly
    ascending order (so each occurs once), and they are exactly the pids,
    other than 0, that some device reports in a successful compute or
    graphics query. *)
Theorem nvmlProcessPIDs_sorted_distinct (w : World) (pids : list N) :
  nvmlProcessPIDs w = Ok pids ->
  StronglySorted N.lt pids
  /\ forall pid, pid ∈ pids
       <-> exists device, device ∈ nvml_devices w /\ pid ∈ device_pids device.
Proof.
  intros Hpids. pose proof (nvmlProcessPIDs_NoDup w pids Hpids) as Hnodup.
  unfold nvmlProcessPIDs in Hpids.
  destruct (nvml_Init w); try discriminate.
  destruct (nvml_DeviceGetCount w); try discriminate.
  destruct (nvmlDeviceLoop _ _ _) as [pidSet|] eqn:Hloop; [|discriminate].
  inversion Hpids; subst. split.
  - apply StronglySorted_le_lt; [|assumption].
    apply StronglySorted_merge_sort;
      [intros x y z; apply N.le_trans | apply N.le_total].
  - intros pid. apply nvmlDeviceLoop_Ok in Hloop as [_ Hset].
    rewrite merge_sort_Permutation, elem_of_elements, Hset. set_solver.
Qed.

(** X1, on two GPUs: process 42 computes on both, process 7 draws on the
    second, and the second also lists pid 0. *)
Lemma nvmlProcessPIDs_sorted_distinct_witness :
  let gpu0 := {| handleRet := SUCCESS;
                 computeRunningProcesses :=
                   ([{| Pid := 42; UsedGpuMemory := 10 |}], SUCCESS);
                 graphicsRunningProcesses := ([], ERROR_NOT_SUPPORTED) |} in
  let gpu1 := {| handleRet := SUCCESS;
                 computeRunningProcesses :=
                   ([{| Pid := 42; UsedGpuMemory := 20 |};
                     {| Pid := 0; UsedGpuMemory := 0 |}], SUCCESS);
                 graphicsRunningProcesses :=
                   ([{| Pid := 7; UsedGpuMemory := 5 |}], SUCCESS) |} in
  let w := {| os_Hostname := Ok "gpu-node-1"; env_NODE_NAME := ""; NumCPU := 8;
              elapsed_seconds := fun _ => 0.25%float;
              nvml_Init := SUCCESS; nvml_DeviceGetCount := SUCCESS;
              nvml_devices := [gpu0; gpu1];
              dcgm_Init := None; dcgm_WatchPidFields := None;
              dcgm_GetProcessInfo := example_info;
              dcgm_IsInt64Blank := fun _ => false;
              cpu_Times := Ok [example_times 0 0 110];
              process_NewProcess := fun _ => Ok (example_process "python" 3) |} in
  nvmlProcessPIDs w = Ok [7%N; 42%N]
  /\ StronglySorted N.lt [7%N; 42%N].
Proof.
  intros gpu0 gpu1 w. split; [reflexivity|].
  apply (nvmlProcessPIDs_sorted_distinct w [7%N; 42%N] eq_refl).
Defined.

(** The outcome of the enumeration, by the answers of NVML. *)
Lemma nvmlProcessPIDs_classified (w : World) :
  match nvmlProcessPIDs w with
  | Ok _ =>
    is_SUCCESS (nvml_Init w) && is_SUCCESS (nvml_DeviceGetCount w)
    && negb (existsb device_fault (nvml_devices w)) = true
  | Err err =>
    is_SUCCESS (nvml_Init w) && is_SUCCESS (nvml_DeviceGetCount w)
    && negb (existsb device_fault (nvml_devices w)) = false
    /\ errors_Is err errGPUProcessInfoUnavailable
       = unavailable_code (nvml_Init w)
         || is_SUCCESS (nvml_Init w) && unavailable_code (nvml_DeviceGetCount w)
    /\ enumeration_fault w = negb (errors_Is err errGPUProcessInfoUnavailable)
  end.
Proof.
  unfold nvmlProcessPIDs, enumeration_fault.
  destruct (nvml_Init w) eqn:Hinit; try (repeat split; reflexivity).
  destruct (nvml_DeviceGetCount w) eqn:Hcount; try (repeat split; reflexivity).
  destruct (nvmlDeviceLoop _ _ _) as [pidSet|err] eqn:Hloop.
  - apply nvmlDeviceLoop_Ok in Hloop as [-> _]. reflexivity.
  - apply nvmlDeviceLoop_Err in Hloop as [-> ->]. repeat split.
Qed.

(** X2. The outcome of [nvmlProcessPIDs] read off the answers of NVML: it
    succeeds exactly when [nvml.Init] and [nvml.DeviceGetCount] succeed and
    no device has a failing handle or a failing process query; when it
    fails, its error is the distinguished unavailability error exactly when
    [nvml.Init], or after it [nvml.DeviceGetCount], answered one of the six
    unavailability codes. An error from a device is never one. *)
Theorem nvmlProcessPIDs_outcome (w : World) :
  match nvmlProcessPIDs w with
  | Ok _ =>
    is_SUCCESS (nvml_Init w) && is_SUCCESS (nvml_DeviceGetCount w)
    && negb (existsb device_fault (nvml_devices w)) = true
  | Err err =>
    is_SUCCESS (nvml_Init w) && is_SUCCESS (nvml_DeviceGetCount w)
    && negb (existsb device_fault (nvml_devices w)) = false
    /\ errors_Is err errGPUProcessInfoUnavailable
       = unavailable_code (nvml_Init w)
         || is_SUCCESS (nvml_Init w) && unavailable_code (nvml_DeviceGetCount w)
    /\ enumeration_fault w = negb (errors_Is err errGPUProcessInfoUnavailable)
  end.
Proof. apply nvmlProcessPIDs_classified. Qed.

(** ** Outcomes of a cycle *)

Section CycleOutcomes.

Variable w : World.

Lemma execute_gpu_process name c :
  snd (execute w name (gpu_process c))
  = snd (fst (Update w c))
    ++ [gauge scrapeDurationDesc (elapsed_seconds w name) [name];
        gauge scrapeSuccessDesc (success_value (snd (Update w c))) [name]].
Proof. now rewrite execute_sends, call_Update_gpu_process. Qed.

Lemma clamp_not_negative (x : float64) :
  ((if x <? 0 then 0 else x) <? 0)%float = false.
Proof. destruct (x <? 0)%float eqn:Hx; [reflexivity | exact Hx]. Qed.

Lemma sanitizeBytes_not_negative value :
  (sanitizeBytes w value <? 0)%float = false.
Proof.
  unfold sanitizeBytes. destruct (Z.leb_spec value 0); cbn; [reflexivity|].
  destruct (dcgm_IsInt64Blank w value); [reflexivity|].
  apply float64_of_int_not_neg. lia.
Qed.

Lemma updateProcess_not_negative hostname systemDelta hasSystemDelta numCPU c ch pid :
  Forall not_negative ch ->
  Forall not_negative
    (snd (updateProcess w hostname systemDelta hasSystemDelta numCPU (c, ch) pid)).
Proof.
  intros Hch. unfold updateProcess.
  destruct (dcgm_GetProcessInfo w pid) as [[|info0 infos]|err]; try exact Hch.
  destruct (collectProcessInfo w pid (info_Name info0))
    as [[[meta memPercent] procSeconds]|err]; try exact Hch.
  destruct (processCPUPercent _ _ _ _ _ _) as [c1 percent]. cbn [snd].
  apply Forall_app. split; [exact Hch|].
  apply Forall_flat_map, Forall_forall. intros info _.
  unfold processSeries, not_negative. repeat constructor; cbn.
  - apply sanitizeBytes_not_negative.
  - apply clamp_not_negative.
  - apply clamp_not_negative.
Qed.

End CycleOutcomes.

(** X3. A fault of the enumeration that is not unavailability ([nvml.Init] or
    [nvml.DeviceGetCount] failing with another code, a device handle that
    cannot be had, a process query failing with a code other than not
    supported, no permission, not found) aborts the cycle: [Update] returns
    an error that wraps the enumeration's, sends nothing and leaves the
    collector as it was, and the scrape reports success = 0. *)
Theorem Update_enumeration_fault (w : World) (c : gpuProcessCollector) (name : string) :
  enumeration_fault w = true ->
  exists err,
    nvmlProcessPIDs w = Err err
    /\ Update w c = (c, [], Some (wrapf "list gpu processes" err))
    /\ snd (execute w name (gpu_process c))
       = [gauge scrapeDurationDesc (elapsed_seconds w name) [name];
          gauge scrapeSuccessDesc 0 [name]].
Proof.
  intros Hfault. pose proof (nvmlProcessPIDs_classified w) as Hout.
  destruct (nvmlProcessPIDs w) as [pids|err] eqn:Hpids.
  - exfalso. unfold enumeration_fault in Hfault.
    destruct (is_SUCCESS (nvml_Init w)), (is_SUCCESS (nvml_DeviceGetCount w)),
      (existsb device_fault (nvml_devices w)); cbn in *; discriminate.
  - destruct Hout as (_ & _ & Hhard). rewrite Hfault in Hhard.
    apply (f_equal negb) in Hhard. rewrite negb_involutive in Hhard. cbn in Hhard.
    exists err. split; [reflexivity|].
    assert (Hupd : Update w c = (c, [], Some (wrapf "list gpu processes" err))).
    { unfold Update. now rewrite Hpids, <- Hhard. }
    split; [exact Hupd|]. rewrite execute_gpu_process, Hupd. reflexivity.
Qed.

(** X3, when the driver has lost the GPU while its compute processes are
    listed (code 15, GPU is lost). *)
Lemma Update_enumeration_fault_witness :
  let gpu := {| handleRet := SUCCESS;
                computeRunningProcesses := ([], ERROR_other 15);
                graphicsRunningProcesses := ([], SUCCESS) |} in
  let w := {| os_Hostname := Ok "gpu-node-1"; env_NODE_NAME := ""; NumCPU := 8;
              elapsed_seconds := fun _ => 0.25%float;
              nvml_Init := SUCCESS; nvml_DeviceGetCount := SUCCESS;
              nvml_devices := [gpu];
              dcgm_Init := None; dcgm_WatchPidFields := None;
              dcgm_GetProcessInfo := example_info;
              dcgm_IsInt64Blank := fun _ => false;
              cpu_Times := Ok [example_times 0 0 110];
              process_NewProcess := fun _ => Ok (example_process "python" 3) |} in
  exists err,
    nvmlProcessPIDs w = Err err
    /\ Update w example_collector
       = (example_collector, [], Some (wrapf "list gpu processes" err))
    /\ snd (execute w "gpu_process" (gpu_process example_collector))
       = [gauge scrapeDurationDesc 0.25 ["gpu_process"];
          gauge scrapeSuccessDesc 0 ["gpu_process"]].
Proof.
  intros gpu w.
  exact (Update_enumeration_fault w example_collector "gpu_process" eq_refl).
Defined.

(** X4. Whenever [Update] returns an error it has sent no metric, and the
    per-pid samples are the ones it started with (the system sample may
    already have been replaced). *)
Theorem Update_error_sends_nothing (w : World) (c : gpuProcessCollector) (err : error) :
  snd (Update w c) = Some err ->
  snd (fst (Update w c)) = []
  /\ cpuSamples (fst (fst (Update w c))) = cpuSamples c.
Proof.
  unfold Update.
  destruct (nvmlProcessPIDs w) as [pids|err0].
  2: { destruct (errors_Is _ _); [discriminate|]. now split. }
  destruct (length pids =? 0)%nat; [discriminate|].
  destruct (readTotalCPUSeconds w) as [total|err0]; [|now split].
  pose proof (updateSystemSample_cpuSamples c total) as Hsys.
  destruct (updateSystemSample c total) as [[c1 systemDelta] hasSystemDelta].
  cbn in Hsys.
  destruct (dcgm_Init w); [now split|].
  destruct (dcgm_WatchPidFields w); [now split|].
  destruct (foldl _ _ pids) as [c2 ch]. discriminate.
Qed.

(** X4, when DCGM cannot be initialised: the samples of process 42 stay, the
    system sample has moved on to the reading of this cycle. *)
Lemma Update_error_sends_nothing_witness :
  let w := {| os_Hostname := Ok "gpu-node-1"; env_NODE_NAME := ""; NumCPU := 8;
              elapsed_seconds := fun _ => 0.25%float;
              nvml_Init := SUCCESS; nvml_DeviceGetCount := SUCCESS;
              nvml_devices := [example_device [42%N]];
              dcgm_Init := Some (dcgmError (-8));
              dcgm_WatchPidFields := None;
              dcgm_GetProcessInfo := example_info;
              dcgm_IsInt64Blank := fun _ => false;
              cpu_Times := Ok [example_times 0 0 110];
              process_NewProcess := fun _ => Ok (example_process "python" 3) |} in
  snd (fst (Update w example_collector)) = []
  /\ cpuSamples (fst (fst (Update w example_collector))) = cpuSamples example_collector
  /\ systemSample (fst (fst (Update w example_collector)))
     = {| totalSeconds := 110; initialized := true |}.
Proof.
  intros w.
  destruct (Update_error_sends_nothing w example_collector
              (wrapf "init dcgm" (dcgmError (-8))) eq_refl) as [Hsent Hsamples].
  repeat split; assumption || reflexivity.
Defined.

(** X5. No series of the process collector is ever below zero: the GPU
    memory is sanitized, CPU and memory percentages are clamped. *)
Theorem Update_values_not_negative (w : World) (c : gpuProcessCollector) :
  Forall not_negative (snd (fst (Update w c))).
Proof.
  unfold Update.
  destruct (nvmlProcessPIDs w) as [pids|err].
  2: { destruct (errors_Is _ _); constructor. }
  destruct (length pids =? 0)%nat; [constructor|].
  destruct (readTotalCPUSeconds w) as [total|err]; [|constructor].
  destruct (updateSystemSample c total) as [[c1 systemDelta] hasSystemDelta].
  destruct (dcgm_Init w); [constructor|].
  destruct (dcgm_WatchPidFields w); [constructor|].
  assert (Hfold : forall pids c ch, Forall not_negative ch ->
            Forall not_negative
              (snd (foldl (updateProcess w (hostNameOrDefault w) systemDelta
                                         hasSystemDelta (NumCPU w))
                          (c, ch) pids))).
  { clear pids. induction pids as [|pid pids IH]; intros c0 ch Hch; cbn [foldl];
      [exact Hch|].
    pose proof (updateProcess_not_negative w (hostNameOrDefault w) systemDelta
                  hasSystemDelta (NumCPU w) c0 ch pid Hch) as Hone.
    destruct (updateProcess _ _ _ _ _ (c0, ch) pid) as [c2 ch2]. now apply IH. }
  specialize (Hfold pids c1 [] (Forall_nil_2 _)).
  destruct (foldl _ _ pids) as [c2 ch]. exact Hfold.
Qed.

(** ** The loop over the active pids *)

Section PidLoop.

Variable w : World.
Variables (hostname : string) (systemDelta : float64) (hasSystemDelta : bool)
          (numCPU : Z).

Lemma processCPUPercent_percent c c' pid procSeconds :
  cpuSamples c' !! pid = cpuSamples c !! pid ->
  snd (processCPUPercent c' pid procSeconds systemDelta hasSystemDelta numCPU)
  = snd (processCPUPercent c pid procSeconds systemDelta hasSystemDelta numCPU).
Proof.
  intros Hsame. unfold processCPUPercent, map_index. rewrite Hsame.
  destruct (cpuSamples c !! pid) as [prev|]; cbn.
  - destruct (_ || _); [reflexivity|]. now destruct (_ <=? _)%float.
  - reflexivity.
Qed.

(** What one iteration sends depends on the collector through the sample of
    its pid only. *)
Lemma updateProcess_sends c c' ch pid :
  cpuSamples c' !! pid = cpuSamples c !! pid ->
  snd (updateProcess w hostname systemDelta hasSystemDelta numCPU (c', ch) pid)
  = ch ++ snd (updateProcess w hostname systemDelta hasSystemDelta numCPU (c, []) pid).
Proof.
  intros Hsame. unfold updateProcess.
  destruct (dcgm_GetProcessInfo w pid) as [[|info0 infos]|err];
    try (cbn; now rewrite app_nil_r).
  destruct (collectProcessInfo w pid (info_Name info0))
    as [[[meta memPercent] procSeconds]|err]; try (cbn; now rewrite app_nil_r).
  pose proof (processCPUPercent_percent c c' pid procSeconds Hsame) as Hpercent.
  destruct (processCPUPercent c' _ _ _ _ _) as [c1' percent'].
  destruct (processCPUPercent c _ _ _ _ _) as [c1 percent].
  cbn in *. now subst.
Qed.

Lemma updateProcess_lookup c ch pid q :
  cpuSamples
    (fst (updateProcess w hostname systemDelta hasSystemDelta numCPU (c, ch) pid)) !! q
  = if bool_decide (q = pid)
    then match current_sample w pid with
         | Some sample => Some sample
         | None => cpuSamples c !! q
         end
    else cpuSamples c !! q.
Proof.
  unfold updateProcess, current_sample.
  destruct (dcgm_GetProcessInfo w pid) as [[|info0 infos]|err];
    try (cbn; now case_bool_decide).
  destruct (collectProcessInfo w pid (info_Name info0))
    as [[[meta memPercent] procSeconds]|err]; try (cbn; now case_bool_decide).
  pose proof (processCPUPercent_state c pid procSeconds systemDelta
                hasSystemDelta numCPU) as Hst.
  destruct (processCPUPercent _ _ _ _ _ _) as [c1 percent]. cbn in *. subst c1.
  cbn. case_bool_decide as Heq.
  - subst q. apply lookup_insert_eq.
  - now rewrite lookup_insert_ne.
Qed.

Lemma foldl_updateProcess_lookup pids : forall c ch q,
  cpuSamples
    (fst (foldl (updateProcess w hostname systemDelta hasSystemDelta numCPU)
                (c, ch) pids)) !! q
  = if bool_decide (q ∈ pids)
    then match current_sample w q with
         | Some sample => Some sample
         | None => cpuSamples c !! q
         end
    else cpuSamples c !! q.
Proof.
  induction pids as [|pid pids IH]; intros c ch q; cbn [foldl].
  - cbn. rewrite bool_decide_eq_false_2; [reflexivity | apply not_elem_of_nil].
  - pose proof (updateProcess_lookup c ch pid q) as Hone.
    destruct (updateProcess _ _ _ _ _ (c, ch) pid) as [c1 ch1]. cbn [fst] in Hone.
    rewrite IH. destruct (decide (q = pid)) as [->|Hne].
    + rewrite bool_decide_eq_true_2 in Hone by reflexivity.
      rewrite (bool_decide_eq_true_2 (pid ∈ pid :: pids)) by left.
      rewrite Hone. clear.
      destruct (bool_decide _), (current_sample w pid); reflexivity.
    + rewrite bool_decide_eq_false_2 in Hone by assumption.
      rewrite Hone. clear Hone.
      destruct (decide (q ∈ pids)) as [Hin|Hin].
      * rewrite (bool_decide_eq_true_2 (q ∈ pids)) by assumption.
        rewrite bool_decide_eq_true_2; [reflexivity | now right].
      * rewrite (bool_decide_eq_false_2 (q ∈ pids)) by assumption.
        rewrite bool_decide_eq_false_2; [reflexivity|].
        intros Hin'. apply elem_of_cons in Hin' as [?|?]; contradiction.
Qed.

Lemma foldl_updateProcess_sends c pids : forall c' ch,
  NoDup pids ->
  (forall q, q ∈ pids -> cpuSamples c' !! q = cpuSamples c !! q) ->
  snd (foldl (updateProcess w hostname systemDelta hasSystemDelta numCPU)
             (c', ch) pids)
  = ch ++ flat_map (fun pid =>
                      snd (updateProcess w hostname systemDelta hasSystemDelta numCPU
                                         (c, []) pid))
                   pids.
Proof.
  induction pids as [|pid pids IH]; intros c' ch Hnodup Hsame; cbn [foldl flat_map].
  - cbn. now rewrite app_nil_r.
  - apply NoDup_cons in Hnodup as [Hfresh Hnodup].
    pose proof (updateProcess_sends c c' ch pid (Hsame pid ltac:(left))) as Hsend.
    assert (Hlater : forall q, q ∈ pids ->
              cpuSamples (fst (updateProcess w hostname systemDelta hasSystemDelta
                                             numCPU (c', ch) pid)) !! q
              = cpuSamples c !! q).
    { intros q Hq. rewrite updateProcess_lookup.
      rewrite bool_decide_eq_false_2 by (intros ->; contradiction).
      apply Hsame. now right. }
    destruct (updateProcess _ _ _ _ _ (c', ch) pid) as [c1 ch1]. cbn in *.
    rewrite (IH c1 ch1 Hnodup Hlater), Hsend. now rewrite app_assoc.
Qed.

End PidLoop.

(** X6. In a cycle that runs its loop, the metrics sent are, pid after pid in
    ascending order, the series of each active pid computed from the sample
    that was stored for that pid before the cycle: what is sent for one pid
    does not depend on the other pids of the cycle. *)
Theorem Update_series_by_pid (w : World) (c : gpuProcessCollector)
    (pids : list N) (total : float64) :
  nvmlProcessPIDs w = Ok pids ->
  pids <> [] ->
  readTotalCPUSeconds w = Ok total ->
  dcgm_Init w = None ->
  dcgm_WatchPidFields w = None ->
  let r := updateSystemSample c total in
  snd (fst (Update w c)) = flat_map (pidSeries w c (snd (fst r)) (snd r)) pids.
Proof.
  intros Hpids Hne Htotal Hinit Hwatch r. subst r. unfold Update.
  rewrite Hpids, Htotal, Hinit, Hwatch.
  destruct pids as [|pid0 pids0]; [contradiction|]. cbn [length Nat.eqb].
  pose proof (updateSystemSample_cpuSamples c total) as Hsys.
  destruct (updateSystemSample c total) as [[c1 systemDelta] hasSystemDelta].
  cbn [fst snd] in *.
  pose proof (foldl_updateProcess_sends w (hostNameOrDefault w) systemDelta
                hasSystemDelta (NumCPU w) c (pid0 :: pids0) c1 []
                (nvmlProcessPIDs_NoDup w _ Hpids)) as Hfold.
  destruct (foldl _ _ (pid0 :: pids0)) as [c2 ch]. cbn [fst snd] in *.
  rewrite Hfold; [reflexivity|]. intros q _. now rewrite Hsys.
Qed.

(** X6, on a GPU with the processes 7 and 42, of which only 42 has a sample:
    the CPU series are 0 for pid 7 and 80 for pid 42. *)
Lemma Update_series_by_pid_witness :
  let w := example_world SUCCESS [42%N; 7%N] example_info 110 "python train.py" 3 in
  map metric_value (snd (fst (Update w example_collector)))
  = map metric_value
        (pidSeries w example_collector 10 true 7
         ++ pidSeries w example_collector 10 true 42)
  /\ map metric_value (snd (fst (Update w example_collector)))
     = [1024; 0; 1.5; 1024; 80; 1.5]%float.
Proof.
  intros w. split; [|reflexivity].
  rewrite (Update_series_by_pid w example_collector [7%N; 42%N] 110
             eq_refl ltac:(discriminate) eq_refl eq_refl eq_refl).
  cbn [flat_map]. now rewrite app_nil_r.
Defined.

(** X7. After a cycle that completes, the sample stored for an active pid is
    the cumulative CPU-seconds read in this cycle when the lookups of the pid
    succeeded, and the sample it had before when they failed; no other pid
    has a sample. *)
Theorem Update_samples_after (w : World) (c : gpuProcessCollector) (pids : list N) :
  nvmlProcessPIDs w = Ok pids ->
  snd (Update w c) = None ->
  forall pid,
  cpuSamples (fst (fst (Update w c))) !! pid
  = if bool_decide (pid ∈ pids)
    then match current_sample w pid with
         | Some sample => Some sample
         | None => cpuSamples c !! pid
         end
    else None.
Proof.
  intros Hpids. unfold Update. rewrite Hpids.
  destruct (Nat.eqb_spec (length pids) 0) as [Hlen|Hlen].
  { intros _ pid. cbn [fst snd]. rewrite resetCPUSamples_eq. cbn.
    destruct pids; [|discriminate].
    rewrite bool_decide_eq_false_2; [apply lookup_empty | apply not_elem_of_nil]. }
  destruct (readTotalCPUSeconds w) as [total|err]; [|discriminate].
  pose proof (updateSystemSample_cpuSamples c total) as Hsys.
  destruct (updateSystemSample c total) as [[c1 systemDelta] hasSystemDelta].
  cbn in Hsys.
  destruct (dcgm_Init w); [discriminate|].
  destruct (dcgm_WatchPidFields w); [discriminate|].
  intros _ pid.
  pose proof (foldl_updateProcess_lookup w (hostNameOrDefault w) systemDelta
                hasSystemDelta (NumCPU w) pids c1 [] pid) as Hfold.
  destruct (foldl _ _ pids) as [c2 ch]. cbn [fst snd] in *.
  rewrite pruneCPUSamples_lookup, Hfold, Hsys.
  now case_bool_decide.
Qed.

(** X7, in the cycle in which process 42 has reached 3.0 CPU-seconds, and the
    stale sample of process 7 goes. *)
Lemma Update_samples_after_witness :
  let w := example_world SUCCESS [42%N] example_info 110 "python train.py" 3 in
  let c := {| cpuSamples := {[ 7%N := {| cpuSeconds := 1 |} ]};
              systemSample := {| totalSeconds := 100; initialized := true |} |} in
  cpuSamples (fst (fst (Update w c))) !! 42%N = Some {| cpuSeconds := 3 |}
  /\ cpuSamples (fst (fst (Update w c))) !! 7%N = None.
Proof.
  intros w c.
  pose proof (Update_samples_after w c [42%N] eq_refl eq_refl) as Hafter.
  split; rewrite Hafter; reflexivity.
Defined.

(** X8. A pid without a stored sample gets CPU series of 0 in its iteration
    of the loop, whatever the system delta and the number of CPUs are. *)
Theorem pidSeries_first_seen (w : World) (c : gpuProcessCollector)
    (systemDelta : float64) (hasSystemDelta : bool) (pid : N) :
  cpuSamples c !! pid = None ->
  Forall cpu_zero (pidSeries w c systemDelta hasSystemDelta pid).
Proof.
  intros Hnone. unfold pidSeries, updateProcess.
  destruct (dcgm_GetProcessInfo w pid) as [[|info0 infos]|err]; try constructor.
  destruct (collectProcessInfo w pid (info_Name info0))
    as [[[meta memPercent] procSeconds]|err]; try constructor.
  unfold processCPUPercent, map_index. rewrite Hnone.
  cbn [negb orb fst snd app].
  apply Forall_flat_map, Forall_forall. intros info _.
  unfold processSeries. repeat constructor; intros Hdesc; cbn in *;
    try discriminate; reflexivity.
Qed.

(** X8, for process 7, new on the GPU, while the system delta is valid. *)
Lemma pidSeries_first_seen_witness :
  let w := example_world SUCCESS [42%N; 7%N] example_info 110 "python train.py" 3 in
  Forall cpu_zero (pidSeries w example_collector 10 true 7).
Proof.
  intros w. apply (pidSeries_first_seen w example_collector 10 true 7).
  reflexivity.
Defined.

(** ** Labels of a process *)

Section UTF8.
Local Open Scope N_scope.

Ltac nlia := zify; Z.to_euclidean_division_equations; lia.

Lemma land_63 b : N.land b 63 = b mod 64.
Proof. change 63 with (N.ones 6). apply N.land_ones. Qed.

Lemma land_31 b : N.land b 31 = b mod 32.
Proof. change 31 with (N.ones 5). apply N.land_ones. Qed.

Lemma land_15 b : N.land b 15 = b mod 16.
Proof. change 15 with (N.ones 4). apply N.land_ones. Qed.

Lemma land_7 b : N.land b 7 = b mod 8.
Proof. change 7 with (N.ones 3). apply N.land_ones. Qed.

(** The payload of a continuation byte and of the three kinds of lead byte. *)
Lemma cont_payload b : b < 64 -> N.land (128 + b) 63 = b.
Proof. intros. rewrite land_63. nlia. Qed.

Lemma lead2_payload a : a < 32 -> N.land (192 + a) 31 = a.
Proof. intros. rewrite land_31. nlia. Qed.

Lemma lead3_payload a : a < 16 -> N.land (224 + a) 15 = a.
Proof. intros. rewrite land_15. nlia. Qed.

Lemma lead4_payload a : a < 8 -> N.land (240 + a) 7 = a.
Proof. intros. rewrite land_7. nlia. Qed.

(** A rune as the 6-bit groups [EncodeRune] writes. *)
Lemma split2 r : r = r / 64 * 64 + r mod 64 /\ r mod 64 < 64.
Proof. nlia. Qed.

Lemma split3 r :
  r = r / 4096 * 4096 + (r / 64) mod 64 * 64 + r mod 64
  /\ (r / 64) mod 64 < 64 /\ r mod 64 < 64.
Proof. nlia. Qed.

Lemma split4 r :
  r = r / 262144 * 262144 + (r / 4096) mod 64 * 4096 + (r / 64) mod 64 * 64 + r mod 64
  /\ (r / 4096) mod 64 < 64 /\ (r / 64) mod 64 < 64 /\ r mod 64 < 64.
Proof. nlia. Qed.

Lemma in_range_spec b lo hi : in_range b lo hi = true <-> lo <= b <= hi.
Proof. unfold in_range. rewrite andb_true_iff, !N.leb_le. reflexivity. Qed.

Lemma first_cases p0 :
  match first p0 with
  | single r => (p0 < 128 /\ r = p0) \/ ((128 <= p0 < 194 \/ 245 <= p0) /\ r = RuneError)
  | lead size lo hi =>
    (194 <= p0 < 224 /\ size = 2%nat /\ lo = 128 /\ hi = 191)
    \/ (p0 = 224 /\ size = 3%nat /\ lo = 160 /\ hi = 191)
    \/ ((225 <= p0 < 237 \/ 238 <= p0 < 240) /\ size = 3%nat /\ lo = 128 /\ hi = 191)
    \/ (p0 = 237 /\ size = 3%nat /\ lo = 128 /\ hi = 159)
    \/ (p0 = 240 /\ size = 4%nat /\ lo = 144 /\ hi = 191)
    \/ (241 <= p0 < 244 /\ size = 4%nat /\ lo = 128 /\ hi = 191)
    \/ (p0 = 244 /\ size = 4%nat /\ lo = 128 /\ hi = 143)
  end.
Proof.
  unfold first.
  repeat match goal with
         | |- context [(?a <? ?b)] => destruct (N.ltb_spec a b)
         | |- context [(?a =? ?b)] => destruct (N.eqb_spec a b)
         end; try (left; lia); try (right; lia); intuition lia.
Qed.

Ltac name_digits :=
  repeat match goal with
         | |- context [?a mod ?b] =>
           let d := fresh "d" in set (d := a mod b) in *; clearbody d
         | |- context [?a / ?b] =>
           let q := fresh "q" in set (q := a / b) in *; clearbody q
         end.

Ltac decide_bool :=
  repeat match goal with
         | |- context [(?a <? ?b)] =>
           first [ replace (a <? b) with true by (symmetry; apply N.ltb_lt; lia)
                 | replace (a <? b) with false by (symmetry; apply N.ltb_ge; lia) ]
         | |- context [(?a <=? ?b)] =>
           first [ replace (a <=? b) with true by (symmetry; apply N.leb_le; lia)
                 | replace (a <=? b) with false by (symmetry; apply N.leb_gt; lia) ]
         end.

Lemma DecodeRune_EncodeRune r rest :
  DecodeRune (EncodeRune r ++ rest) = (scalar r, length (EncodeRune r)).
Proof.
  unfold EncodeRune, scalar, valid_rune.
  destruct (N.ltb_spec r 128).
  { cbn [app length]. unfold DecodeRune.
    pose proof (first_cases r) as Hf. destruct (first r); [|exfalso; lia].
    decide_bool. cbn. f_equal. lia. }
  destruct (N.ltb_spec r 2048).
  { destruct (split2 r) as (Hr & Hd).
    cbn [app length]. name_digits. unfold DecodeRune.
    pose proof (first_cases (192 + q)) as Hf.
    destruct (first _) as [|size lo hi]; [exfalso; lia|].
    assert (size = 2%nat /\ lo = 128 /\ hi = 191) as (-> & -> & ->) by lia.
    replace (in_range _ _ _) with true by (symmetry; apply in_range_spec; lia).
    decide_bool.
    cbn [negb Nat.leb orb]. unfold rune2.
    rewrite lead2_payload, cont_payload by lia. f_equal. lia. }
  destruct (N.ltb_spec 1114111 r).
  { decide_bool. reflexivity. }
  cbn [orb].
  destruct (N.leb_spec 55296 r), (N.leb_spec r 57343); cbn [andb];
    try (decide_bool; reflexivity); try (exfalso; lia).
  - destruct (N.ltb_spec r 65536).
    + destruct (split3 r) as (Hr & Hc & Hd).
      cbn [app length]. name_digits. unfold DecodeRune.
      pose proof (first_cases (224 + q)) as Hf.
      destruct (first _) as [|size lo hi]; [exfalso; lia|].
      assert (size = 3%nat /\ lo = 128 /\ hi = 191) as (-> & -> & ->) by lia.
      unfold is_cont.
      rewrite !(proj2 (in_range_spec _ 128 191)) by lia.
      decide_bool.
      cbn [negb Nat.leb orb andb]. unfold rune3.
      rewrite lead3_payload, !cont_payload by lia. f_equal. lia.
    + destruct (split4 r) as (Hr & Hb & Hc & Hd).
      cbn [app length]. name_digits. unfold DecodeRune.
      pose proof (first_cases (240 + q)) as Hf.
      destruct (first _) as [|size lo hi]; [exfalso; lia|].
      assert (size = 4%nat /\ lo <= 128 + d <= hi) as (-> & Hb1) by lia.
      apply in_range_spec in Hb1. rewrite Hb1.
      unfold is_cont.
      rewrite !(proj2 (in_range_spec _ 128 191)) by lia.
      decide_bool.
      cbn [negb Nat.leb orb andb]. unfold rune4.
      rewrite lead4_payload, !cont_payload by lia. f_equal. lia.
  - destruct (split3 r) as (Hr & Hc & Hd).
    decide_bool.
    cbn [app length orb]. name_digits. unfold DecodeRune.
    pose proof (first_cases (224 + q)) as Hf.
    destruct (first _) as [|size lo hi]; [exfalso; lia|].
    assert (size = 3%nat /\ lo <= 128 + d <= hi) as (-> & Hb1) by lia.
    apply in_range_spec in Hb1. rewrite Hb1.
    unfold is_cont.
    rewrite !(proj2 (in_range_spec _ 128 191)) by lia.
    cbn [negb Nat.leb]. unfold rune3.
    rewrite lead3_payload, !cont_payload by lia. f_equal. lia.
Qed.

Lemma EncodeRune_bytes r : Forall (fun b => b < 256) (EncodeRune r).
Proof.
  unfold EncodeRune.
  destruct (N.ltb_spec r 128); [repeat constructor; lia|].
  destruct (N.ltb_spec r 2048).
  { destruct (split2 r) as (Hr & Hd). name_digits. repeat constructor; lia. }
  destruct (_ || _) eqn:Hinvalid; [repeat constructor; lia|].
  apply orb_false_elim in Hinvalid as [Hmax _]. apply N.ltb_ge in Hmax.
  destruct (N.ltb_spec r 65536).
  - destruct (split3 r) as (Hr & Hc & Hd). name_digits. repeat constructor; lia.
  - destruct (split4 r) as (Hr & Hb & Hc & Hd). name_digits. repeat constructor; lia.
Qed.

Lemma EncodeRune_not_nil r : EncodeRune r <> [].
Proof.
  unfold EncodeRune.
  repeat match goal with |- context [if ?b then _ else _] => destruct b end;
    discriminate.
Qed.

Lemma DecodeRune_valid p : valid_rune (fst (DecodeRune p)) = true.
Proof.
  assert (Herr : valid_rune RuneError = true) by reflexivity.
  destruct p as [|p0 t0]; [exact Herr|]. unfold DecodeRune.
  pose proof (first_cases p0) as Hf. destruct (first p0) as [r|size lo hi].
  { cbn [fst]. destruct Hf as [[? ->]|[_ ->]]; [|exact Herr].
    unfold valid_rune. apply orb_true_intro. left. apply N.ltb_lt. lia. }
  destruct t0 as [|b1 t1]; [exact Herr|].
  destruct (in_range b1 lo hi) eqn:Hb1; [|exact Herr]. cbn [negb].
  apply in_range_spec in Hb1.
  assert (Hm1 : N.land b1 63 = b1 - 128) by (rewrite land_63; nlia).
  destruct (size <=? 2)%nat eqn:Hsize.
  { cbn [fst]. unfold rune2. rewrite Hm1, land_31.
    assert (size = 2%nat) as -> by (apply Nat.leb_le in Hsize; lia).
    unfold valid_rune. apply orb_true_intro. left. apply N.ltb_lt. nlia. }
  destruct t1 as [|b2 t2]; [exact Herr|].
  unfold is_cont.
  destruct (in_range b2 128 191) eqn:Hb2; [|exact Herr]. cbn [negb].
  apply in_range_spec in Hb2.
  assert (Hm2 : N.land b2 63 = b2 - 128) by (rewrite land_63; nlia).
  destruct (size <=? 3)%nat eqn:Hsize3.
  { cbn [fst]. unfold rune3. rewrite Hm1, Hm2, land_15.
    apply Nat.leb_gt in Hsize. apply Nat.leb_le in Hsize3.
    unfold valid_rune.
    destruct (N.eq_dec p0 237) as [->|Hp0].
    - apply orb_true_intro. left. apply N.ltb_lt. nlia.
    - destruct (N.lt_ge_cases p0 237).
      + apply orb_true_intro. left. apply N.ltb_lt. nlia.
      + apply orb_true_intro. right. apply andb_true_intro.
        split; [apply N.ltb_lt | apply N.leb_le]; nlia. }
  destruct t2 as [|b3 t3]; [exact Herr|].
  destruct (in_range b3 128 191) eqn:Hb3; [|exact Herr]. cbn [negb fst].
  apply in_range_spec in Hb3.
  assert (Hm3 : N.land b3 63 = b3 - 128) by (rewrite land_63; nlia).
  unfold rune4. rewrite Hm1, Hm2, Hm3, land_7.
  apply Nat.leb_gt in Hsize3.
  unfold valid_rune. apply orb_true_intro. right. apply andb_true_intro.
  split; [apply N.ltb_lt | apply N.leb_le]; nlia.
Qed.

Lemma DecodeRune_width p : (snd (DecodeRune p) <= length p)%nat.
Proof.
  destruct p as [|p0 t0]; [reflexivity|]. unfold DecodeRune.
  destruct (first p0) as [r|size lo hi]; [cbn; lia|].
  destruct t0 as [|b1 t1]; [cbn; lia|].
  destruct (negb _); [cbn; lia|]. destruct (size <=? 2)%nat; [cbn; lia|].
  destruct t1 as [|b2 t2]; [cbn; lia|].
  destruct (negb _); [cbn; lia|]. destruct (size <=? 3)%nat; [cbn; lia|].
  destruct t2 as [|b3 t3]; [cbn; lia|].
  destruct (negb _); cbn; lia.
Qed.

Lemma decode_from_length skip p : (length (decode_from skip p) <= length p)%nat.
Proof.
  revert skip. induction p as [|b rest IH]; intros skip; [reflexivity|].
  cbn [decode_from]. destruct skip as [|skip].
  - destruct (DecodeRune (b :: rest)) as [r size].
    cbn [length]. specialize (IH (size - 1)%nat). lia.
  - specialize (IH skip). cbn [length]. lia.
Qed.

Lemma decode_from_valid skip p :
  Forall (fun c => valid_rune (fst c) = true) (decode_from skip p).
Proof.
  revert skip. induction p as [|b rest IH]; intros skip; [constructor|].
  cbn [decode_from]. destruct skip as [|skip]; [|apply IH].
  pose proof (DecodeRune_valid (b :: rest)) as Hvalid.
  destruct (DecodeRune (b :: rest)) as [r size].
  constructor; [exact Hvalid | apply IH].
Qed.

Lemma decode_from_skip (l q : list N) :
  decode_from (length l) (l ++ q)%list = decode_from 0 q.
Proof. induction l as [|b l IH]; [reflexivity | exact IH]. Qed.

Lemma decode_EncodeRune (r : N) (rest : list N) :
  decode (EncodeRune r ++ rest)%list = (scalar r, EncodeRune r) :: decode rest.
Proof.
  pose proof (DecodeRune_EncodeRune r rest) as Hrune.
  pose proof (EncodeRune_not_nil r) as Hnil.
  destruct (EncodeRune r) as [|p0 t]; [contradiction|].
  unfold decode. change ((p0 :: t) ++ rest) with (p0 :: t ++ rest) in *.
  cbn [decode_from]. rewrite Hrune. cbn [length firstn].
  rewrite firstn_app, firstn_all, Nat.sub_diag, app_nil_r.
  replace (S (length t) - 1)%nat with (length t) by lia.
  rewrite decode_from_skip. reflexivity.
Qed.

Lemma decode_concat_EncodeRune rs :
  decode (concat (map EncodeRune rs)) = map (fun r => (scalar r, EncodeRune r)) rs.
Proof.
  induction rs as [|r rs IH]; [reflexivity|].
  cbn [map concat]. rewrite decode_EncodeRune, IH. reflexivity.
Qed.

Lemma bytes_of_string_of_bytes bs :
  Forall (fun b => b < 256) bs -> bytes_of_string (string_of_bytes bs) = bs.
Proof.
  intros Hbs. unfold bytes_of_string, string_of_bytes.
  rewrite String.list_ascii_of_string_of_list_ascii.
  induction Hbs as [|b bs Hb _ IH]; [reflexivity|].
  cbn [map]. rewrite IH, Ascii.N_ascii_embedding by exact Hb. reflexivity.
Qed.

Lemma bytes_of_string_bytes s : Forall (fun b => b < 256) (bytes_of_string s).
Proof.
  unfold bytes_of_string. apply List.Forall_forall. intros b Hb.
  apply in_map_iff in Hb as (a & <- & _). apply Ascii.N_ascii_bounded.
Qed.

Lemma length_bytes_of_string s : length (bytes_of_string s) = len s.
Proof.
  unfold bytes_of_string, len. rewrite length_map.
  induction s as [|a s IH]; [reflexivity|]. cbn. now rewrite IH.
Qed.

Lemma len_string_of_bytes bs : len (string_of_bytes bs) = length bs.
Proof.
  unfold string_of_bytes, len.
  induction bs as [|b bs IH]; [reflexivity|]. cbn. now rewrite IH.
Qed.

Lemma runes_string_of_runes rs : runes (string_of_runes rs) = map scalar rs.
Proof.
  unfold runes, string_of_runes.
  rewrite bytes_of_string_of_bytes.
  - rewrite decode_concat_EncodeRune, map_map. reflexivity.
  - apply Forall_concat, List.Forall_forall. intros bs Hbs.
    apply in_map_iff in Hbs as (r & <- & _). apply EncodeRune_bytes.
Qed.

Lemma runes_valid s : Forall (fun r => valid_rune r = true) (runes s).
Proof.
  unfold runes, decode.
  induction (decode_from_valid 0 (bytes_of_string s)) as [|c cs Hc _ IH];
    constructor; assumption.
Qed.

Lemma map_scalar_valid rs :
  Forall (fun r => valid_rune r = true) rs -> map scalar rs = rs.
Proof.
  induction 1 as [|r rs Hr _ IH]; [reflexivity|].
  cbn [map]. rewrite IH. unfold scalar. rewrite Hr. reflexivity.
Qed.

Lemma length_runes s : (length (runes s) <= len s)%nat.
Proof.
  unfold runes, decode. rewrite length_map, <- length_bytes_of_string.
  apply decode_from_length.
Qed.

Lemma length_concat_EncodeRune rs :
  (length rs <= length (concat (map EncodeRune rs)))%nat.
Proof.
  induction rs as [|r rs IH]; [reflexivity|].
  cbn [map concat length]. rewrite length_app.
  pose proof (EncodeRune_not_nil r). destruct (EncodeRune r); [contradiction|].
  cbn [length]. lia.
Qed.

Lemma is_empty_len s : is_empty s = false <-> len s <> 0%nat.
Proof. destruct s; cbn; split; (congruence || lia). Qed.

Lemma truncateCommand_code_points command :
  (length (runes (truncateCommand command)) <= maxCommandLabelLength)%nat.
Proof.
  unfold truncateCommand.
  destruct (Nat.ltb_spec maxCommandLabelLength (len command)) as [Hlen|Hlen].
  - destruct (Nat.ltb_spec maxCommandLabelLength (length (runes command))) as [Hrunes|Hrunes].
    + rewrite runes_string_of_runes, length_map, length_firstn. lia.
    + etransitivity; [apply length_runes|].
      unfold byte_prefix. rewrite len_string_of_bytes, length_firstn. lia.
  - etransitivity; [apply length_runes | exact Hlen].
Qed.

Lemma truncateCommand_not_empty command :
  is_empty command = false -> is_empty (truncateCommand command) = false.
Proof.
  intros Hcommand. unfold truncateCommand.
  destruct (Nat.ltb_spec maxCommandLabelLength (len command)) as [Hlen|Hlen];
    [|exact Hcommand].
  apply is_empty_len.
  destruct (Nat.ltb_spec maxCommandLabelLength (length (runes command))) as [Hrunes|Hrunes].
  - unfold string_of_runes. rewrite len_string_of_bytes.
    pose proof (length_concat_EncodeRune (firstn maxCommandLabelLength (runes command))) as Hle.
    rewrite length_firstn in Hle. unfold maxCommandLabelLength in *. lia.
  - unfold byte_prefix.
    rewrite len_string_of_bytes, length_firstn, length_bytes_of_string.
    unfold maxCommandLabelLength in *. lia.
Qed.

Lemma firstNonEmpty_not_empty values v :
  In v values -> is_empty (TrimSpace v) = false ->
  is_empty (firstNonEmpty values) = false.
Proof.
  intros Hin Hv. induction values as [|val rest IH]; [contradiction|].
  cbn [firstNonEmpty]. destruct (is_empty (TrimSpace val)) eqn:Hval; cbn [negb].
  - destruct Hin as [->|Hin]; [congruence | exact (IH Hin)].
  - exact Hval.
Qed.

Lemma firstNonEmpty_unknown values :
  is_empty (firstNonEmpty (values ++ [unknownProcessLabel])) = false.
Proof.
  apply (firstNonEmpty_not_empty _ unknownProcessLabel).
  - apply in_or_app. right. left. reflexivity.
  - reflexivity.
Qed.

End UTF8.


(** X9. A command line of more than 200 code points is cut to exactly its
    first 200 code points: read as runes, the label is the first 200 runes of
    the command line. *)
Theorem truncateCommand_first_runes (command : string) :
  (maxCommandLabelLength < length (runes command))%nat ->
  runes (truncateCommand command) = firstn maxCommandLabelLength (runes command).
Proof.
  intros Hrunes. pose proof (length_runes command) as Hlen. unfold truncateCommand.
  destruct (Nat.ltb_spec maxCommandLabelLength (len command)); [|lia].
  destruct (Nat.ltb_spec maxCommandLabelLength (length (runes command))); [|lia].
  rewrite runes_string_of_runes.
  apply map_scalar_valid, Forall_take, runes_valid.
Qed.

(** X9, on a command line of 150 letters followed by 60 euro signs: 330
    bytes, 210 code points. The label keeps the letters and the first 50 euro
    signs. *)
Lemma truncateCommand_first_runes_witness :
  let source := (Repeat "a" 150 +:+ Repeat "€" 60)%string in
  length (runes source) = 210%nat
  /\ runes (truncateCommand source) = firstn 200 (runes source)
  /\ runes (truncateCommand source) = repeat 97%N 150 ++ repeat 8364%N 50.
Proof.
  cbv zeta. split; [vm_compute; reflexivity|].
  split; [|vm_compute; reflexivity].
  apply truncateCommand_first_runes. vm_compute. lia.
Defined.

(** X10. Whenever [collectProcessInfo] succeeds, none of the three labels it
    returns is empty, and the command label has at most 200 code points. *)
Theorem collectProcessInfo_labels (w : World) (pid : N) (fallbackName : string)
    (meta : processMetadata) (memPercent cpuSeconds : float64) :
  collectProcessInfo w pid fallbackName = Ok (meta, memPercent, cpuSeconds) ->
  name meta <> ""%string /\ uid meta <> ""%string /\ command meta <> ""%string
  /\ (length (runes (command meta)) <= 200)%nat.
Proof.
  assert (Hne : forall s, is_empty s = false -> s <> ""%string)
    by (intros s Hs ->; discriminate).
  unfold collectProcessInfo. intros Hinfo.
  destruct (process_NewProcess w _) as [proc|]; [|discriminate].
  destruct (proc_MemoryPercent proc); [|discriminate].
  destruct (proc_Times proc); [|discriminate].
  inversion Hinfo; subst; clear Hinfo. cbn [name uid command].
  split; [|split; [|split]].
  - apply Hne, (firstNonEmpty_unknown [_; _]).
  - apply Hne, (firstNonEmpty_unknown [_]).
  - apply Hne, truncateCommand_not_empty, (firstNonEmpty_unknown [_; _; _]).
  - apply truncateCommand_code_points.
Qed.

(** X10, for a process of which the host knows neither a name nor a command
    line, and whose owner cannot be read: every label falls back to
    "unknown". *)
Lemma collectProcessInfo_labels_witness :
  let meta := {| name := "unknown"; uid := "unknown"; command := "unknown" |} in
  collectProcessInfo example_nameless_world 42 "" = Ok (meta, 1.5%float, 3%float)
  /\ name meta <> ""%string /\ uid meta <> ""%string /\ command meta <> ""%string
  /\ (length (runes (command meta)) <= 200)%nat.
Proof.
  cbv zeta. split; [vm_compute; reflexivity|].
  apply (collectProcessInfo_labels example_nameless_world 42 "" _ 1.5%float 3%float).
  vm_compute. reflexivity.
Defined.
